(** * redigo: the TCP key-value server of [server/server.go]

    A shallow embedding of the command dispatcher ([handlecommand] and the
    five [handle*] methods) and of the readiness-driven event loop
    ([Start]), followed by the properties of the specification that concern
    them.

    Conventions.
    - A Go [string] / [[]byte] is a Rocq [string] (a sequence of bytes).
    - A Go [(T, error)] result is a sum [T + error]; a Go [error] result is
      an [option error] ([None] is [nil]).
    - [uint] is modelled as [Z] with the 64-bit wrap-around written out.
    - Everything the operating system, the clock and the peer decide is an
      explicit input of the functions (the answers a call receives); every
      call the server makes that is visible from outside is appended to a
      trace of [action]s. *)

From Stdlib Require Import ZArith Ascii String List Lia Bool.
From stdpp Require Import base option gmap strings.
Import ListNotations.

Local Open Scope string_scope.
Local Open Scope list_scope.
Local Open Scope Z_scope.

(* ===================================================================== *)
(** ** Go standard library: [strings.Fields] and [strconv.Atoi]          *)
(* ===================================================================== *)

Module GoStrings.

Definition code (c : ascii) : Z := Z.of_N (N_of_ascii c).

(** [asciiSpace] of package [strings]: '\t' '\n' '\v' '\f' '\r' ' '. *)
Definition asciiSpace (c : ascii) : bool :=
  let n := code c in ((9 <=? n) && (n <=? 13)) || (n =? 32).

(** White space of two bytes: U+0085 (C2 85) and U+00A0 (C2 A0). *)
Definition space2 (c0 c1 : ascii) : bool :=
  (code c0 =? 194) && ((code c1 =? 133) || (code c1 =? 160)).

(** White space of three bytes: U+1680 (E1 9A 80), U+2000..U+200A
    (E2 80 80..8A), U+2028, U+2029 (E2 80 A8, A9), U+202F (E2 80 AF),
    U+205F (E2 81 9F) and U+3000 (E3 80 80). *)
Definition space3 (c0 c1 c2 : ascii) : bool :=
  let '(a, b, c) := (code c0, code c1, code c2) in
  ((a =? 225) && (b =? 154) && (c =? 128))
  || ((a =? 226) && (b =? 128)
      && (((128 <=? c) && (c <=? 138)) || (c =? 168) || (c =? 169) || (c =? 175)))
  || ((a =? 226) && (b =? 129) && (c =? 159))
  || ((a =? 227) && (b =? 128) && (c =? 128)).

(** Width in bytes of the white-space rune ([unicode.IsSpace]) that starts
    the string, 0 when the string does not start with one.  A lead byte of
    UTF-8 is never a continuation byte, so these byte patterns occur at
    rune boundaries only. *)
Definition space_width (s : string) : nat :=
  match s with
  | String c0 r0 =>
      if asciiSpace c0 then 1%nat else
      match r0 with
      | String c1 r1 =>
          if space2 c0 c1 then 2%nat else
          match r1 with
          | String c2 _ => if space3 c0 c1 c2 then 3%nat else 0%nat
          | EmptyString => 0%nat
          end
      | EmptyString => 0%nat
      end
  | EmptyString => 0%nat
  end.

Definition flush (cur : string) : list string :=
  match cur with EmptyString => [] | _ => [cur] end.

(** [skip] counts the bytes of a white-space rune still to be dropped;
    [cur] is the field being collected. *)
Fixpoint fields_from (s : string) (skip : nat) (cur : string) : list string :=
  match s with
  | EmptyString => flush cur
  | String c r =>
      match skip with
      | S k => fields_from r k cur
      | O =>
          match space_width s with
          | O => fields_from r 0 (cur +:+ String c EmptyString)
          | S k => flush cur ++ fields_from r k EmptyString
          end
      end
  end.

(** [strings.Fields]: the maximal runs of bytes between white space. *)
Definition Fields (s : string) : list string := fields_from s 0 EmptyString.

Definition digit (c : ascii) : option Z :=
  let n := code c - 48 in
  if (0 <=? n) && (n <=? 9) then Some n else None.

Fixpoint digits (s : string) (acc : Z) : option Z :=
  match s with
  | EmptyString => Some acc
  | String c r =>
      match digit c with
      | Some d => digits r (10 * acc + d)
      | None => None
      end
  end.

(** The integer a token denotes in decimal: an optional sign and at least
    one digit; no bound on the size. *)
Definition decimal (s : string) : option Z :=
  match s with
  | EmptyString => None
  | String c r =>
      let neg := (code c =? 45) in
      let body := if (code c =? 45) || (code c =? 43) then r else s in
      match body with
      | EmptyString => None
      | _ =>
          match digits body 0 with
          | Some n => Some (if neg then - n else n)
          | None => None
          end
      end
  end.

(** Go's [int] on the 64-bit platforms the server is built for. *)
Definition intSize : Z := 64.
Definition minInt : Z := - 2 ^ (intSize - 1).
Definition maxInt : Z := 2 ^ (intSize - 1) - 1.

(** [strconv.Atoi]: the decimal value when it fits [int]; a syntax or a
    range error ([None]) otherwise.  The text of the error is never used
    by the server. *)
Definition Atoi (s : string) : option Z :=
  match decimal s with
  | Some n => if (minInt <=? n) && (n <=? maxInt) then Some n else None
  | None => None
  end.

End GoStrings.

(* ===================================================================== *)
(** ** The cache package                                                  *)
(* ===================================================================== *)

Module Cache.

(** Modelled from the spec: the package [cache] (type [Cache] with [Set],
    [SetWithTTL], [Get], [Delete], [Has] and [DeleteExpiredKeys]) is
    imported by [server.go] and is not part of it.  Section 3 and 4.2 of
    the specification give the entry and each operation; [now] is the
    clock as the cache reads it, in seconds. *)
Record entry := Entry { value : string; expiresAt : option Z }.

Inductive error :=
| NotFound (key : string)
| InvalidArgument (ttl : Z).

(** Modelled from the spec: "an entry is expired iff [now >= expiresAt]";
    an entry without [expiresAt] never expires. *)
Definition expired (now : Z) (e : entry) : bool :=
  match expiresAt e with
  | Some t => t <=? now
  | None => false
  end.

(** Modelled from the spec: "unconditional upsert, clears any prior
    expiry. Always succeeds." *)
Definition Set_ (c : gmap string entry) (key val : string)
  : gmap string entry * option error :=
  (<[key := Entry val None]> c, None).

(** Modelled from the spec: "upsert with absolute expiry = now +
    ttlSeconds. Fails with InvalidArgument if ttlSeconds is not a
    non-negative integer". *)
Definition SetWithTTL (c : gmap string entry) (now : Z) (key val : string) (ttl : Z)
  : gmap string entry * option error :=
  if ttl <? 0 then (c, Some (InvalidArgument ttl))
  else (<[key := Entry val (Some (now + ttl))]> c, None).

(** Modelled from the spec: "returns the value if present and not
    expired; fails with NotFound if absent or passively found to be
    expired", the expired entry being evicted. *)
Definition Get (c : gmap string entry) (now : Z) (key : string)
  : gmap string entry * (string + error) :=
  match c !! key with
  | None => (c, inr (NotFound key))
  | Some e =>
      if expired now e then (delete key c, inr (NotFound key))
      else (c, inl (value e))
  end.

(** Modelled from the spec: "removes the key if present; fails with
    NotFound otherwise." *)
Definition Delete (c : gmap string entry) (key : string)
  : gmap string entry * option error :=
  match c !! key with
  | None => (c, Some (NotFound key))
  | Some _ => (delete key c, None)
  end.

(** Modelled from the spec: "returns a boolean; an expired key is not
    present ..., with the same side-effect of eager eviction." *)
Definition Has (c : gmap string entry) (now : Z) (key : string)
  : gmap string entry * bool :=
  match c !! key with
  | None => (c, false)
  | Some e => if expired now e then (delete key c, false) else (c, true)
  end.

(** Modelled from the spec: "scans all entries, evicts every entry whose
    expiresAt is in the past relative to current time. Returns count
    evicted". *)
Definition DeleteExpiredKeys (c : gmap string entry) (now : Z)
  : gmap string entry * nat :=
  let live := filter (fun kv => expired now kv.2 = false) c in
  (live, (size c - size live)%nat).

End Cache.

(* ===================================================================== *)
(** ** Errors, the server value and the command handlers                  *)
(* ===================================================================== *)

(** What a system call, the multiplexer or a read or write on a connection
    reports when it fails. *)
Inductive syserr :=
| EOF                 (* orderly close by the peer *)
| EAGAIN              (* the call would block on the non-blocking socket *)
| Errno (n : Z).      (* any other failure *)

(** A Go [error] value as [server.go] meets it: made by [errors.New] or
    [fmt.Errorf], handed back by the cache, or by the system. *)
Inductive error :=
| errorString (msg : string)
| cacheError (e : Cache.error)
| sysError (e : syserr).

(** [Server] with the embedded [ServerOpts] written out; [con_clients] is a
    [uint]. *)
Record Server := mkServer {
  Host : string;
  Port : Z;
  CronFrequency : Z;
  lastCronExecTime : Z;
  cache : gmap string Cache.entry;
  con_clients : Z
}.

Definition set_cache (s : Server) (c : gmap string Cache.entry) : Server :=
  mkServer (Host s) (Port s) (CronFrequency s) (lastCronExecTime s) c (con_clients s).

Definition set_lastCronExecTime (s : Server) (t : Z) : Server :=
  mkServer (Host s) (Port s) (CronFrequency s) t (cache s) (con_clients s).

Definition set_con_clients (s : Server) (n : Z) : Server :=
  mkServer (Host s) (Port s) (CronFrequency s) (lastCronExecTime s) (cache s) n.

Definition uintSize : Z := 2 ^ 64.

(** [s.con_clients++] and [s.con_clients--] on a [uint]. *)
Definition incr (n : Z) : Z := (n + 1) mod uintSize.
Definition decr (n : Z) : Z := (n - 1) mod uintSize.

(** A reply or an error, with the server the call leaves behind (the cache
    is the only field a handler changes). *)
Definition reply : Type := Server * (string + error).

(** The calls to [log.Printf] are left out: logging is no part of the
    server's contract.  [now] is the clock as the cache reads it during the
    call. *)
Definition handleSet (s : Server) (key val : string) : reply :=
  let '(c, err) := Cache.Set_ (cache s) key val in
  match err with
  | Some e => (set_cache s c, inr (cacheError e))
  | None => (set_cache s c, inl "Success")
  end.

Definition handleSetWithTTL (s : Server) (now : Z) (key val ttl : string) : reply :=
  match GoStrings.Atoi ttl with
  | None => (s, inr (errorString "invalid TTl"))
  | Some parsedTTL =>
      let '(c, err) := Cache.SetWithTTL (cache s) now key val parsedTTL in
      match err with
      | Some e => (set_cache s c, inr (cacheError e))
      | None => (set_cache s c, inl "Success")
      end
  end.

Definition handleGet (s : Server) (now : Z) (key : string) : reply :=
  let '(c, r) := Cache.Get (cache s) now key in
  match r with
  | inr e => (set_cache s c, inr (cacheError e))
  | inl val => (set_cache s c, inl val)
  end.

Definition handleDel (s : Server) (key : string) : reply :=
  let '(c, err) := Cache.Delete (cache s) key in
  match err with
  | Some e => (set_cache s c, inr (cacheError e))
  | None => (set_cache s c, inl "Success")
  end.

Definition handleHas (s : Server) (now : Z) (key : string) : reply :=
  let '(c, isPresent) := Cache.Has (cache s) now key in
  if negb isPresent then (set_cache s c, inl "No")
  else (set_cache s c, inl "Yes").

(** [parts[i]]; the dispatcher only indexes below [len_cmd]. *)
Definition part (parts : list string) (i : nat) : string := nth i parts "".

Definition handlecommand (s : Server) (now : Z) (rawCmd : string) : reply :=
  let parts := GoStrings.Fields rawCmd in
  let len_cmd := length parts in
  if (len_cmd <? 2)%nat then
    (s, inr (errorString "message must atleast have command and key"))
  else
    let cmd := part parts 0 in
    let key := part parts 1 in
    if String.eqb cmd "SET" then
      match len_cmd with
      | 3%nat => handleSet s key (part parts 2)
      | 4%nat => handleSetWithTTL s now key (part parts 2) (part parts 3)
      | _ => (s, inr (errorString "SET message must atleast have key and value"))
      end
    else if String.eqb cmd "GET" then handleGet s now key
    else if String.eqb cmd "DEL" then handleDel s key
    else if String.eqb cmd "HAS" then handleHas s now key
    else (s, inr (errorString ("unknown Command " +:+ cmd))).

(* ===================================================================== *)
(** ** The event loop                                                     *)
(* ===================================================================== *)

(** The calls of [Start] that are visible outside the process, in the order
    they are made. *)
Inductive action :=
| ActSocket
| ActBind
| ActListen
| ActMuxNew
| ActMuxClose
| ActSetNonblock (fd : Z)
| ActSubscribe (fd : Z)
| ActSweep
| ActPoll
| ActAccept
| ActRead (fd : Z)
| ActWrite (fd : Z) (payload : string)
| ActClose (fd : Z).

(** Modelled from the spec: the multiplexer (package [iomultiplexer]) and
    the connection wrapper [fDconn] are declared outside [server.go].  A
    handle is open from the call that creates it until it is closed;
    [Subscribe] puts a handle under read-readiness monitoring and closing
    the handle or the multiplexer ends the monitoring ("handle closed,
    unregistered"; "monitored handles are implicitly unregistered"). *)
Record World := mkWorld {
  srv : Server;
  open_fds : gset Z;
  monitored : gset Z;
  trace : list action
}.

Definition emit (a : action) (w : World) : World :=
  mkWorld (srv w) (open_fds w) (monitored w) (trace w ++ [a]).

Definition set_srv (s : Server) (w : World) : World :=
  mkWorld s (open_fds w) (monitored w) (trace w).

Definition opened (fd : Z) (w : World) : World :=
  mkWorld (srv w) ({[fd]} ∪ open_fds w) (monitored w) (trace w).

Definition subscribed (fd : Z) (w : World) : World :=
  mkWorld (srv w) (open_fds w) ({[fd]} ∪ monitored w) (trace w).

(** Modelled from the spec: [fDconn.Close] is declared outside
    [server.go]; like [syscall.Close(fd)] it closes the handle, which ends
    its monitoring ("handle closed, unregistered"). *)
Definition close (fd : Z) (w : World) : World :=
  mkWorld (srv w) (open_fds w ∖ {[fd]}) (monitored w ∖ {[fd]}) (trace w ++ [ActClose fd]).

(** Modelled from the spec: [multiplexer.Close()] "releases the underlying
    readiness object; monitored handles are implicitly unregistered". *)
Definition muxClose (w : World) : World :=
  mkWorld (srv w) (open_fds w) ∅ (trace w ++ [ActMuxClose]).

Definition clients_incr (w : World) : World :=
  set_srv (set_con_clients (srv w) (incr (con_clients (srv w)))) w.

Definition clients_decr (w : World) : World :=
  set_srv (set_con_clients (srv w) (decr (con_clients (srv w)))) w.

(** [iomultiplexer.Event]. *)
Record Event := mkEvent { Fd : Z; Op : Z }.

(** What the calls made while one ready handle is served are answered:
    [Accept] and the [Subscribe] of the new handle on the listening handle;
    [ReadBytes], the clock of the cache and [Write] on a client handle. *)
Record Answers := mkAnswers {
  accept_r : syserr + Z;
  subscribe_r : option syserr;
  read_r : syserr + string;
  clock_r : Z;
  write_r : option syserr
}.

(** One turn of the [for] loop: the three readings of the clock (by the
    test of the sweep, by the cache during the sweep, by the assignment
    after it) and the answer of [Poll] with the answers for each handle it
    reports. *)
Record Tick := mkTick {
  now_check : Z;
  now_cache : Z;
  now_stamp : Z;
  poll_r : syserr + list (Event * Answers)
}.

(** The answers of the calls [Start] makes before the loop;
    [parseip_ok] is whether [net.ParseIP] accepts [Host] (a [nil] result
    makes [ip4[0]] panic). *)
Record Boot := mkBoot {
  socket_r : syserr + Z;
  setnonblock_r : option syserr;
  parseip_ok : bool;
  bind_r : option syserr;
  listen_r : option syserr;
  mux_r : option syserr;
  subscribe0_r : option syserr
}.

(** How a run of [Start] stands at the end of the inputs given to it:
    returned an error to its caller, ended the process from inside
    ([log.Fatal], which is [os.Exit(1)]: no deferred call runs), panicked,
    or still serving. *)
Inductive outcome :=
| Returned (e : error)
| Exited (e : error)
| Panicked
| Serving.

Definition newline : string := String (ascii_of_nat 10) EmptyString.

Section EventLoop.

(** The text of the errors that [server.go] does not make itself. *)
Variable cacheText : Cache.error -> string.
Variable sysText : syserr -> string.

(** [err.Error()]. *)
Definition Error (e : error) : string :=
  match e with
  | errorString msg => msg
  | cacheError e => cacheText e
  | sysError e => sysText e
  end.

(** The sweep at the head of the loop body:
    [time.Now().After(s.lastCronExecTime.Add(s.CronFrequency))]. *)
Definition cron (w : World) (t : Tick) : World :=
  let s := srv w in
  if lastCronExecTime s + CronFrequency s <? now_check t then
    let '(c, _) := Cache.DeleteExpiredKeys (cache s) (now_cache t) in
    set_srv (set_lastCronExecTime (set_cache s c) (now_stamp t)) (emit ActSweep w)
  else w.

(** The body of [for _, event := range events]: [Some err] when [Start]
    returns [err] from inside it, [None] when the loop goes on. *)
Definition serve (serverFD : Z) (w : World) (event : Event) (a : Answers)
  : option error * World :=
  if Fd event =? serverFD then
    let w := emit ActAccept w in
    match accept_r a with
    | inl _ => (None, w)
    | inr fd =>
        let w := clients_incr (opened fd w) in
        let w := emit (ActSetNonblock fd) w in
        let w := emit (ActSubscribe fd) w in
        match subscribe_r a with
        | Some e => (Some (sysError e), w)
        | None => (None, subscribed fd w)
        end
    end
  else
    let fd := Fd event in
    let w := emit (ActRead fd) w in
    match read_r a with
    | inl _ => (None, clients_decr (close fd w))
    | inr cmd =>
        let '(s, r) := handlecommand (srv w) (clock_r a) cmd in
        let resp := match r with inl resp => resp | inr err => Error err end in
        let w := emit (ActWrite fd (resp +:+ newline)) (set_srv s w) in
        match write_r a with
        | Some _ => (None, clients_decr (close fd w))
        | None => (None, w)
        end
    end.

Fixpoint serveAll (serverFD : Z) (w : World) (events : list (Event * Answers))
  : option error * World :=
  match events with
  | [] => (None, w)
  | (event, a) :: rest =>
      match serve serverFD w event a with
      | (Some e, w') => (Some e, w')
      | (None, w') => serveAll serverFD w' rest
      end
  end.

(** The [for] loop, run over the turns given. *)
Fixpoint loop (serverFD : Z) (w : World) (script : list Tick) : outcome * World :=
  match script with
  | [] => (Serving, w)
  | t :: rest =>
      let w := emit ActPoll (cron w t) in
      match poll_r t with
      | inl _ => loop serverFD w rest
      | inr events =>
          match serveAll serverFD w events with
          | (Some e, w') => (Returned e, w')
          | (None, w') => loop serverFD w' rest
          end
      end
  end.

(** The deferred calls, last registered first. *)
Definition leave1 (serverFD : Z) (w : World) : World := close serverFD w.
Definition leave2 (serverFD : Z) (w : World) : World :=
  close serverFD (muxClose w).

Definition fail1 (serverFD : Z) (e : syserr) (w : World) : outcome * World :=
  (Returned (sysError e), leave1 serverFD w).

Definition Start (s : Server) (b : Boot) (script : list Tick) : outcome * World :=
  let w := emit ActSocket (mkWorld s ∅ ∅ []) in
  match socket_r b with
  | inl e => (Returned (sysError e), w)
  | inr serverFD =>
      let w := emit (ActSetNonblock serverFD) (opened serverFD w) in
      match setnonblock_r b with
      | Some e => fail1 serverFD e w
      | None =>
          if negb (parseip_ok b) then (Panicked, leave1 serverFD w) else
          let w := emit ActBind w in
          match bind_r b with
          | Some e => fail1 serverFD e w
          | None =>
              let w := emit ActListen w in
              match listen_r b with
              | Some e => fail1 serverFD e w
              | None =>
                  let w := emit ActMuxNew w in
                  match mux_r b with
                  | Some e => (Exited (sysError e), w)
                  | None =>
                      let w := emit (ActSubscribe serverFD) w in
                      match subscribe0_r b with
                      | Some e => (Returned (sysError e), leave2 serverFD w)
                      | None =>
                          match loop serverFD (subscribed serverFD w) script with
                          | (Returned e, w') => (Returned e, leave2 serverFD w')
                          | other => other
                          end
                      end
                  end
              end
          end
      end
  end.

End EventLoop.

(* ===================================================================== *)
(** ** Notions used to state the properties                               *)
(* ===================================================================== *)

(** The dispatcher read by cases on the token list: command, key and the
    tokens after the key.  [handlecommand_dispatch] below shows that
    [handlecommand] computes it. *)
Definition dispatch (s : Server) (now : Z) (cmd key : string) (args : list string)
  : reply :=
  if String.eqb cmd "SET" then
    match args with
    | [val] => handleSet s key val
    | [val; ttl] => handleSetWithTTL s now key val ttl
    | _ => (s, inr (errorString "SET message must atleast have key and value"))
    end
  else if String.eqb cmd "GET" then handleGet s now key
  else if String.eqb cmd "DEL" then handleDel s key
  else if String.eqb cmd "HAS" then handleHas s now key
  else (s, inr (errorString ("unknown Command " +:+ cmd))).

(** A token that is a non-negative integer: an optional sign, digits, and a
    value of at least 0. *)
Definition nonneg_integer (tok : string) : bool :=
  match GoStrings.decimal tok with
  | Some n => 0 <=? n
  | None => false
  end.

(** The two errors that reject a TTL: the one [handleSetWithTTL] makes and
    the one the cache hands back. *)
Definition invalid_ttl (e : error) : Prop :=
  e = errorString "invalid TTl" \/ exists n, e = cacheError (Cache.InvalidArgument n).

(** The entry under [key] counts as present at [now]. *)
Definition live (c : gmap string Cache.entry) (now : Z) (key : string) : bool :=
  match c !! key with
  | Some e => negb (Cache.expired now e)
  | None => false
  end.

(** The text put on the wire for the result of a dispatch. *)
Definition wire_text (errText : error -> string) (r : string + error) : string :=
  match r with
  | inl resp => resp
  | inr err => errText err
  end.

Definition poll_failed (t : Tick) : Prop := exists e, poll_r t = inl e.

(** What follows the write of a reply in the trace: the close of the handle
    when the write failed, nothing otherwise. *)
Definition closing (r : option syserr) (fd : Z) : list action :=
  match r with
  | Some _ => [ActClose fd]
  | None => []
  end.

(** Every call of [Start] before the loop succeeds and the listening handle
    is [serverFD]. *)
Definition boot_ok (b : Boot) (serverFD : Z) : Prop :=
  socket_r b = inr serverFD /\ setnonblock_r b = None /\ parseip_ok b = true
  /\ bind_r b = None /\ listen_r b = None /\ mux_r b = None
  /\ subscribe0_r b = None.

(** The world in which the loop is entered. *)
Definition booted (s : Server) (serverFD : Z) : World :=
  mkWorld s {[serverFD]} {[serverFD]}
    [ActSocket; ActSetNonblock serverFD; ActBind; ActListen; ActMuxNew;
     ActSubscribe serverFD].

(** The sweep was invoked at the head of the turn. *)
Definition swept (w : World) (t : Tick) : Prop :=
  trace (cron w t) = trace w ++ [ActSweep].

(** *** Construction

    [ServerOpts] as the caller of [NewServer] fills it; [NewServer] copies
    it into the server, takes the cache it is handed and leaves
    [con_clients] at the zero value. *)
Module ServerOpts.
Record t := mk {
  Host : string;
  Port : Z;
  CronFrequency : Z;
  lastCronExecTime : Z
}.
End ServerOpts.

Definition NewServer (opts : ServerOpts.t) (c : gmap string Cache.entry) : Server :=
  mkServer (ServerOpts.Host opts) (ServerOpts.Port opts)
    (ServerOpts.CronFrequency opts) (ServerOpts.lastCronExecTime opts) c 0.

(** *** Notions for the run of the loop *)

(** What a call made inside the loop may be, given the listening handle:
    no call of the set-up, no read, write or close on the listening handle,
    and every payload written ends in a newline. *)
Definition loop_action (serverFD : Z) (act : action) : Prop :=
  match act with
  | ActSocket | ActBind | ActListen | ActMuxNew | ActMuxClose => False
  | ActSweep | ActPoll | ActAccept => True
  | ActSetNonblock fd => True
  | ActSubscribe fd => True
  | ActRead fd => fd <> serverFD
  | ActWrite fd payload => fd <> serverFD /\ exists resp, payload = resp +:+ newline
  | ActClose fd => fd <> serverFD
  end.

(** The change of the number of connections a call stands for inside the
    loop: [SetNonblock] is called once for each handle accepted, [Close]
    once for each handle given up. *)
Definition client_change (act : action) : Z :=
  match act with
  | ActSetNonblock _ => 1
  | ActClose _ => -1
  | _ => 0
  end.

Definition clients_delta (tail : list action) : Z :=
  fold_right (fun act d => client_change act + d) 0 tail.

(** The same two fields of the configuration, and the same address. *)
Definition same_config (s s' : Server) : Prop :=
  Host s' = Host s /\ Port s' = Port s /\ CronFrequency s' = CronFrequency s.

(** A token: not empty and free of ASCII white space. *)
Fixpoint no_ascii_space (tok : string) : bool :=
  match tok with
  | EmptyString => true
  | String c r => negb (GoStrings.asciiSpace c) && no_ascii_space r
  end.

Definition is_token (tok : string) : Prop :=
  tok <> "" /\ no_ascii_space tok = true.

(** An error [server.go] makes itself when it refuses a line. *)
Definition refusal (e : error) : Prop :=
  e = errorString "message must atleast have command and key"
  \/ e = errorString "SET message must atleast have key and value"
  \/ e = errorString "invalid TTl"
  \/ exists cmd, e = errorString ("unknown Command " +:+ cmd).

(** A handle that is open stays open, and one that is monitored stays
    monitored, from world [w] to world [w']. *)
Definition kept (fd : Z) (w w' : World) : Prop :=
  (fd ∈ open_fds w -> fd ∈ open_fds w') /\ (fd ∈ monitored w -> fd ∈ monitored w').

Definition clients_in_range (w : World) : Prop :=
  0 <= con_clients (srv w) < uintSize.

(** The handle is among those a poll reports ready, in one answer of
    [Poll] and in a run of the loop. *)
Definition reported_in (fd : Z) (events : list (Event * Answers)) : Prop :=
  Exists (fun ea => Fd (fst ea) = fd) events.

Definition reported (fd : Z) (script : list Tick) : Prop :=
  Exists (fun t => match poll_r t with
                   | inr events => reported_in fd events
                   | inl _ => False
                   end) script.

(** A byte that is neither ASCII white space nor the first byte of a
    white-space rune, a token made of such bytes, and the line a client
    sends for a list of tokens: single spaces between them and a newline
    at the end. *)
Definition plain_byte (c : ascii) : bool :=
  let n := GoStrings.code c in
  negb (GoStrings.asciiSpace c)
  && negb ((n =? 194) || (n =? 225) || (n =? 226) || (n =? 227)).

Fixpoint plain (tok : string) : bool :=
  match tok with
  | EmptyString => true
  | String c r => plain_byte c && plain r
  end.

Definition plain_token (tok : string) : Prop := tok <> "" /\ plain tok = true.

Fixpoint join_line (tokens : list string) : string :=
  match tokens with
  | [] => newline
  | tok :: rest =>
      match rest with
      | [] => tok +:+ newline
      | _ => tok +:+ String " " (join_line rest)
      end
  end.

(** *** Sample values

    A server that has served one client, with listening handle 3, a client
    on handle 7 and one key in the cache; texts for the errors of the
    cache and of the system; a boot in which every call succeeds. *)
Definition demo_server : Server :=
  mkServer "127.0.0.1" 7379 10 100 {["foo" := Cache.Entry "bar" None]} 1.

Definition demo_world : World := mkWorld demo_server {[3; 7]} {[3; 7]} [].

Definition demo_cacheText (e : Cache.error) : string :=
  match e with
  | Cache.NotFound key => "key not found: " +:+ key
  | Cache.InvalidArgument _ => "ttl must not be negative"
  end.

Definition demo_sysText (e : syserr) : string :=
  match e with
  | EOF => "EOF"
  | EAGAIN => "resource temporarily unavailable"
  | Errno _ => "errno"
  end.

Definition demo_boot : Boot := mkBoot (inr 3) None true None None None None.

Definition line (s : string) : string := s +:+ newline.

Definition client_answers (r : syserr + string) (wr : option syserr) : Answers :=
  mkAnswers (inl EAGAIN) None r 105 wr.

Definition idle_tick (now : Z) : Tick := mkTick now now now (inl EAGAIN).

(* ===================================================================== *)
(** ** Equations of the dispatcher                                        *)
(* ===================================================================== *)

Lemma set_cache_same s : set_cache s (cache s) = s.
Proof. destruct s; reflexivity. Qed.

Lemma handlecommand_short s now raw :
  (length (GoStrings.Fields raw) < 2)%nat ->
  handlecommand s now raw =
    (s, inr (errorString "message must atleast have command and key")).
Proof.
  intros Hlen. unfold handlecommand.
  destruct (Nat.ltb_spec (length (GoStrings.Fields raw)) 2) as [_ | Hge]; [reflexivity | lia].
Qed.

Lemma handlecommand_dispatch s now raw cmd key args :
  GoStrings.Fields raw = cmd :: key :: args ->
  handlecommand s now raw = dispatch s now cmd key args.
Proof.
  intros Hparts. unfold handlecommand, dispatch, part. rewrite Hparts.
  cbn [length nth Nat.ltb Nat.leb].
  destruct (String.eqb cmd "SET"); [| reflexivity].
  destruct args as [| val [| ttl [| extra more]]]; reflexivity.
Qed.

Lemma fields_two_or_more raw :
  (2 <= length (GoStrings.Fields raw))%nat ->
  exists cmd key args, GoStrings.Fields raw = cmd :: key :: args.
Proof.
  destruct (GoStrings.Fields raw) as [| cmd [| key args]]; cbn [length]; intros Hlen;
    [lia | lia | eauto].
Qed.

(** A handler changes no field of the server but the cache. *)
Lemma dispatch_con_clients s now cmd key args :
  con_clients (fst (dispatch s now cmd key args)) = con_clients s.
Proof.
  unfold dispatch, handleSet, handleSetWithTTL, handleGet, handleDel, handleHas,
    Cache.Set_, Cache.SetWithTTL, Cache.Get, Cache.Delete, Cache.Has.
  repeat (match goal with
          | |- context [match ?x with _ => _ end] => destruct x
          end; try reflexivity).
Qed.

Lemma handlecommand_con_clients s now raw :
  con_clients (fst (handlecommand s now raw)) = con_clients s.
Proof.
  destruct (Nat.lt_ge_cases (length (GoStrings.Fields raw)) 2) as [Hlt | Hge].
  - rewrite handlecommand_short by exact Hlt. reflexivity.
  - destruct (fields_two_or_more raw Hge) as (cmd & key & args & Hparts).
    rewrite (handlecommand_dispatch _ _ _ _ _ _ Hparts). apply dispatch_con_clients.
Qed.

Lemma atoi_decimal tok n : GoStrings.Atoi tok = Some n -> GoStrings.decimal tok = Some n.
Proof.
  unfold GoStrings.Atoi. destruct (GoStrings.decimal tok) as [m |]; [| discriminate].
  destruct ((GoStrings.minInt <=? m) && (m <=? GoStrings.maxInt)); congruence.
Qed.

(* ===================================================================== *)
(** ** Properties of the dispatcher                                       *)
(* ===================================================================== *)

(** C1. A [SET] line of exactly four tokens whose last token is not a
    non-negative integer is rejected with an invalid-TTL error and leaves
    the server, hence the cache, as it was: a token that is no integer at
    all gets the error of [handleSetWithTTL], and a negative integer that
    [Atoi] accepts is refused by the cache. *)
Theorem set_with_bad_ttl_rejected s now raw key val ttl :
  GoStrings.Fields raw = ["SET"; key; val; ttl] ->
  nonneg_integer ttl = false ->
  exists e,
    handlecommand s now raw = (s, inr e)
    /\ invalid_ttl e
    /\ (GoStrings.decimal ttl = None -> e = errorString "invalid TTl")
    /\ (forall n, GoStrings.Atoi ttl = Some n ->
          n < 0 /\ e = cacheError (Cache.InvalidArgument n)).
Proof.
  intros Hparts Hbad.
  rewrite (handlecommand_dispatch _ _ _ _ _ _ Hparts).
  unfold dispatch. cbn [String.eqb Ascii.eqb Bool.eqb]. unfold handleSetWithTTL.
  destruct (GoStrings.Atoi ttl) as [n |] eqn:Hatoi.
  - pose proof (atoi_decimal _ _ Hatoi) as Hdec.
    unfold nonneg_integer in Hbad. rewrite Hdec in Hbad.
    apply Z.leb_gt in Hbad.
    unfold Cache.SetWithTTL.
    destruct (Z.ltb_spec n 0) as [_ | Hge]; [| lia].
    rewrite set_cache_same.
    exists (cacheError (Cache.InvalidArgument n)).
    split; [reflexivity |]. split; [| split].
    + right. exists n. reflexivity.
    + intros Hnone. congruence.
    + intros m Hm. injection Hm as <-. split; [exact Hbad | reflexivity].
  - exists (errorString "invalid TTl").
    split; [reflexivity |]. split; [| split].
    + left. reflexivity.
    + intros _. reflexivity.
    + intros m Hm. discriminate Hm.
Qed.

(** C3. Dispatch of a line: fewer than two tokens is an error; [SET] with a
    token count other than 3 or 4 is an error; an unknown first token, with
    a key present, is an error; and [SET a b] succeeds, replies [Success]
    and stores [b] under [a] without expiry. *)
Theorem dispatch_of_line s now raw :
  ((length (GoStrings.Fields raw) < 2)%nat ->
     handlecommand s now raw =
       (s, inr (errorString "message must atleast have command and key")))
  /\ (forall rest,
        GoStrings.Fields raw = "SET" :: rest ->
        length (GoStrings.Fields raw) <> 3%nat ->
        length (GoStrings.Fields raw) <> 4%nat ->
        exists e, handlecommand s now raw = (s, inr e))
  /\ (forall cmd key args,
        GoStrings.Fields raw = cmd :: key :: args ->
        cmd <> "SET" -> cmd <> "GET" -> cmd <> "DEL" -> cmd <> "HAS" ->
        handlecommand s now raw =
          (s, inr (errorString ("unknown Command " +:+ cmd))))
  /\ (forall a b,
        GoStrings.Fields raw = ["SET"; a; b] ->
        handlecommand s now raw =
          (set_cache s (<[a := Cache.Entry b None]> (cache s)), inl "Success")).
Proof.
  split; [| split; [| split]].
  - apply handlecommand_short.
  - intros rest Hparts Hn3 Hn4.
    destruct rest as [| key args].
    + rewrite handlecommand_short by (rewrite Hparts; cbn; lia). eauto.
    + rewrite (handlecommand_dispatch _ _ _ _ _ _ Hparts).
      rewrite Hparts in Hn3, Hn4. cbn [length] in Hn3, Hn4.
      unfold dispatch. cbn [String.eqb Ascii.eqb Bool.eqb].
      destruct args as [| val [| ttl [| extra more]]]; cbn [length] in Hn3, Hn4;
        try congruence; eauto.
  - intros cmd key args Hparts Hset Hget Hdel Hhas.
    rewrite (handlecommand_dispatch _ _ _ _ _ _ Hparts). unfold dispatch.
    apply String.eqb_neq in Hset, Hget, Hdel, Hhas.
    rewrite Hset, Hget, Hdel, Hhas. reflexivity.
  - intros a b Hparts.
    rewrite (handlecommand_dispatch _ _ _ _ _ _ Hparts). reflexivity.
Qed.

(** C9. [GET], [DEL] and [HAS] take the second token as the key and look at
    no token after it: a line with further tokens is not rejected, it runs
    the handler on the key and gives what the two-token line gives. *)
Theorem tokens_after_key_ignored s now raw raw2 cmd key extra more :
  cmd = "GET" \/ cmd = "DEL" \/ cmd = "HAS" ->
  GoStrings.Fields raw = cmd :: key :: extra :: more ->
  GoStrings.Fields raw2 = [cmd; key] ->
  handlecommand s now raw = handlecommand s now raw2
  /\ handlecommand s now raw =
       (if String.eqb cmd "GET" then handleGet s now key
        else if String.eqb cmd "DEL" then handleDel s key
        else handleHas s now key).
Proof.
  intros Hcmd Hparts Hparts2.
  rewrite (handlecommand_dispatch _ _ _ _ _ _ Hparts).
  rewrite (handlecommand_dispatch _ _ _ _ _ _ Hparts2).
  destruct Hcmd as [-> | [-> | ->]]; split; reflexivity.
Qed.

(* ===================================================================== *)
(** ** Equations of the event loop                                        *)
(* ===================================================================== *)

(** The two recursions, one step unfolded. *)
Lemma serveAll_cons ct st serverFD w event a rest :
  serveAll ct st serverFD w ((event, a) :: rest) =
    match serve ct st serverFD w event a with
    | (Some e, w') => (Some e, w')
    | (None, w') => serveAll ct st serverFD w' rest
    end.
Proof. reflexivity. Qed.

Lemma loop_cons ct st serverFD w t rest :
  loop ct st serverFD w (t :: rest) =
    match poll_r t with
    | inl _ => loop ct st serverFD (emit ActPoll (cron w t)) rest
    | inr events =>
        match serveAll ct st serverFD (emit ActPoll (cron w t)) events with
        | (Some e, w') => (Returned e, w')
        | (None, w') => loop ct st serverFD w' rest
        end
    end.
Proof. reflexivity. Qed.

Section EventLoopFacts.

Variable cacheText : Cache.error -> string.
Variable sysText : syserr -> string.

Local Abbreviation Error := (Error cacheText sysText).
Local Abbreviation serve := (serve cacheText sysText).
Local Abbreviation serveAll := (serveAll cacheText sysText).
Local Abbreviation loop := (loop cacheText sysText).
Local Abbreviation Start := (Start cacheText sysText).

Lemma serve_read_failed serverFD w event a e :
  Fd event <> serverFD ->
  read_r a = inl e ->
  serve serverFD w event a =
    (None, clients_decr (close (Fd event) (emit (ActRead (Fd event)) w))).
Proof.
  intros Hfd Hread. unfold serve.
  apply Z.eqb_neq in Hfd. rewrite Hfd, Hread. reflexivity.
Qed.

Lemma serve_read_ok serverFD w event a raw :
  Fd event <> serverFD ->
  read_r a = inr raw ->
  serve serverFD w event a =
    let hc := handlecommand (srv w) (clock_r a) raw in
    let w1 := emit (ActWrite (Fd event) (wire_text Error (snd hc) +:+ newline))
                (set_srv (fst hc) (emit (ActRead (Fd event)) w)) in
    (None, match write_r a with
           | Some _ => clients_decr (close (Fd event) w1)
           | None => w1
           end).
Proof.
  intros Hfd Hread. unfold serve.
  apply Z.eqb_neq in Hfd. rewrite Hfd, Hread. cbn [srv emit].
  destruct (handlecommand (srv w) (clock_r a) raw) as [s r].
  cbn [fst snd]. unfold wire_text.
  destruct (write_r a); reflexivity.
Qed.

Lemma serve_accept_subscribe_failed serverFD w event a fd e :
  Fd event = serverFD ->
  accept_r a = inr fd ->
  subscribe_r a = Some e ->
  serve serverFD w event a =
    (Some (sysError e),
     emit (ActSubscribe fd) (emit (ActSetNonblock fd)
       (clients_incr (opened fd (emit ActAccept w))))).
Proof.
  intros Hfd Hacc Hsub. unfold serve.
  apply Z.eqb_eq in Hfd. rewrite Hfd, Hacc, Hsub. reflexivity.
Qed.

Lemma serveAll_app serverFD w pre post :
  serveAll serverFD w (pre ++ post) =
    match serveAll serverFD w pre with
    | (Some e, w') => (Some e, w')
    | (None, w') => serveAll serverFD w' post
    end.
Proof.
  revert w. induction pre as [| [event a] pre IH]; intros w; cbn [app]; rewrite ?serveAll_cons.
  - reflexivity.
  - destruct (serve serverFD w event a) as [[e |] w']; [reflexivity | apply IH].
Qed.

Lemma loop_app serverFD w before after :
  loop serverFD w (before ++ after) =
    match loop serverFD w before with
    | (Serving, w') => loop serverFD w' after
    | other => other
    end.
Proof.
  revert w. induction before as [| t before IH]; intros w; cbn [app]; rewrite ?loop_cons.
  - reflexivity.
  - destruct (poll_r t) as [e | events]; [apply IH |].
    destruct (serveAll serverFD (emit ActPoll (cron w t)) events) as [[e |] w'];
      [reflexivity | apply IH].
Qed.

Lemma Start_booted s b serverFD script :
  boot_ok b serverFD ->
  Start s b script =
    match loop serverFD (booted s serverFD) script with
    | (Returned e, w') => (Returned e, leave2 serverFD w')
    | other => other
    end.
Proof.
  intros (Hsock & Hnb & Hip & Hbind & Hlisten & Hmux & Hsub).
  unfold Start. rewrite Hsock, Hnb, Hip, Hbind, Hlisten, Hmux, Hsub.
  cbn [negb]. unfold booted, subscribed, emit, opened. cbn.
  rewrite (right_id_L (∅ : gset Z) (∪)).
  reflexivity.
Qed.

Lemma closed_not_open fd w : fd ∉ open_fds (clients_decr (close fd w)).
Proof. cbn. rewrite not_elem_of_difference, elem_of_singleton. right. reflexivity. Qed.

Lemma closed_not_monitored fd w : fd ∉ monitored (clients_decr (close fd w)).
Proof. cbn. rewrite not_elem_of_difference, elem_of_singleton. right. reflexivity. Qed.

Lemma decr_pred n : 0 < n < uintSize -> decr n = n - 1.
Proof.
  intros Hn. unfold decr. apply Z.mod_small. lia.
Qed.

(* ===================================================================== *)
(** ** Properties of the event loop                                       *)
(* ===================================================================== *)

(** C5. When the dispatch of a line read from a client handle gives an
    error, the one write made on that handle carries the text of the error
    followed by a newline, and [Start] does not return; once that write is
    taken, the handle is neither closed nor taken out of the monitored set,
    and the connection counter is as before. *)
Theorem dispatch_error_written_back serverFD w event a raw s' e :
  Fd event <> serverFD ->
  read_r a = inr raw ->
  handlecommand (srv w) (clock_r a) raw = (s', inr e) ->
  let res := serve serverFD w event a in
  fst res = None
  /\ trace (snd res) =
       trace w ++ [ActRead (Fd event); ActWrite (Fd event) (Error e +:+ newline)]
         ++ closing (write_r a) (Fd event)
  /\ (write_r a = None ->
        open_fds (snd res) = open_fds w
        /\ monitored (snd res) = monitored w
        /\ con_clients (srv (snd res)) = con_clients (srv w)
        /\ ActClose (Fd event) ∉ drop (length (trace w)) (trace (snd res))).
Proof.
  intros Hfd Hread Hcmd res. subst res.
  rewrite (serve_read_ok _ _ _ _ _ Hfd Hread).
  pose proof (handlecommand_con_clients (srv w) (clock_r a) raw) as Hcount.
  rewrite Hcmd in *. cbn [fst snd wire_text] in *.
  split; [reflexivity |]. split.
  - destruct (write_r a); cbn; rewrite <- !app_assoc; reflexivity.
  - intros Hwrite. rewrite Hwrite. cbn.
    repeat split; try assumption.
    rewrite <- app_assoc, drop_app_length. cbn.
    rewrite !not_elem_of_cons. repeat split; try discriminate. apply not_elem_of_nil.
Qed.

(** C6. A readiness event on a client handle whose read fails, whatever the
    failure (the peer closed, the read would block, anything else): the
    handle is closed and no longer monitored, the counter goes down by one,
    nothing is written, and the loop goes on with the next ready handle.
    When the read succeeds and the write of the reply fails: the handle is
    closed and the counter goes down by one.  In both cases [Start] does
    not return. *)
Theorem client_io_failure_closes serverFD w event a rest :
  Fd event <> serverFD ->
  let fd := Fd event in
  let res := serve serverFD w event a in
  (forall e, read_r a = inl e ->
     fst res = None
     /\ trace (snd res) = trace w ++ [ActRead fd; ActClose fd]
     /\ (fd ∉ open_fds (snd res)) /\ (fd ∉ monitored (snd res))
     /\ con_clients (srv (snd res)) = decr (con_clients (srv w))
     /\ (0 < con_clients (srv w) < uintSize ->
           con_clients (srv (snd res)) = con_clients (srv w) - 1)
     /\ serveAll serverFD w ((event, a) :: rest) = serveAll serverFD (snd res) rest)
  /\ (forall raw e, read_r a = inr raw -> write_r a = Some e ->
        fst res = None
        /\ (exists payload,
              trace (snd res) = trace w ++ [ActRead fd; ActWrite fd payload; ActClose fd])
        /\ (fd ∉ open_fds (snd res)) /\ (fd ∉ monitored (snd res))
        /\ con_clients (srv (snd res)) = decr (con_clients (srv w))
        /\ (0 < con_clients (srv w) < uintSize ->
              con_clients (srv (snd res)) = con_clients (srv w) - 1)
        /\ serveAll serverFD w ((event, a) :: rest) = serveAll serverFD (snd res) rest).
Proof.
  intros Hfd fd res. subst fd res. split.
  - intros e Hread. rewrite ?serveAll_cons.
    rewrite (serve_read_failed _ _ _ _ _ Hfd Hread). cbn [fst snd].
    split; [reflexivity |]. split; [cbn; rewrite <- app_assoc; reflexivity |].
    split; [apply closed_not_open |]. split; [apply closed_not_monitored |].
    split; [reflexivity |]. split; [| reflexivity].
    intros Hn. cbn. apply decr_pred, Hn.
  - intros raw e Hread Hwrite. rewrite ?serveAll_cons.
    rewrite (serve_read_ok _ _ _ _ _ Hfd Hread). rewrite Hwrite. cbn [fst snd].
    pose proof (handlecommand_con_clients (srv w) (clock_r a) raw) as Hcount.
    split; [reflexivity |]. split.
    { eexists. cbn. rewrite <- !app_assoc. reflexivity. }
    split; [apply closed_not_open |]. split; [apply closed_not_monitored |].
    split; [cbn; rewrite Hcount; reflexivity |]. split; [| reflexivity].
    intros Hn. cbn. rewrite Hcount. apply decr_pred, Hn.
Qed.

Lemma handleSetWithTTL_success s now key val ttl s' resp :
  handleSetWithTTL s now key val ttl = (s', inl resp) -> resp = "Success".
Proof.
  unfold handleSetWithTTL, Cache.SetWithTTL.
  destruct (GoStrings.Atoi ttl) as [n |]; [| discriminate].
  destruct (n <? 0); intros Heq; inversion Heq; reflexivity.
Qed.

Lemma handleDel_success s key s' resp :
  handleDel s key = (s', inl resp) -> resp = "Success".
Proof.
  unfold handleDel, Cache.Delete.
  destruct (cache s !! key); intros Heq; inversion Heq; reflexivity.
Qed.

Lemma handleGet_success s now key s' resp :
  handleGet s now key = (s', inl resp) ->
  exists e, cache s !! key = Some e /\ Cache.expired now e = false /\ resp = Cache.value e.
Proof.
  unfold handleGet, Cache.Get.
  destruct (cache s !! key) as [e |]; [| discriminate].
  destruct (Cache.expired now e) eqn:Hexp; intros Heq; inversion Heq.
  exists e. auto.
Qed.

Lemma handleHas_reply s now key :
  snd (handleHas s now key) = inl (if live (cache s) now key then "Yes" else "No").
Proof.
  unfold handleHas, Cache.Has, live.
  destruct (cache s !! key) as [e |]; [| reflexivity].
  destruct (Cache.expired now e); reflexivity.
Qed.

(** C7. A dispatch that succeeds replies [Success] for [SET] (with or
    without TTL) and for [DEL], the value stored under the key for [GET],
    and [Yes] or [No] for [HAS]; [HAS] on a key that is absent or expired
    succeeds with [No]; and the payload of the write that follows a
    dispatch is the reply, or the text of the error, with one newline
    appended. *)
Theorem reply_payloads s now raw :
  (forall s' resp,
     handlecommand s now raw = (s', inl resp) ->
     exists cmd key args,
       GoStrings.Fields raw = cmd :: key :: args
       /\ ((cmd = "SET" /\ resp = "Success")
           \/ (cmd = "DEL" /\ resp = "Success")
           \/ (cmd = "GET" /\ exists e, cache s !! key = Some e
                 /\ Cache.expired now e = false /\ resp = Cache.value e)
           \/ (cmd = "HAS" /\ resp = if live (cache s) now key then "Yes" else "No")))
  /\ (forall key args,
        GoStrings.Fields raw = "HAS" :: key :: args ->
        live (cache s) now key = false ->
        snd (handlecommand s now raw) = inl "No")
  /\ (forall serverFD w event a,
        Fd event <> serverFD -> read_r a = inr raw ->
        srv w = s -> clock_r a = now ->
        trace (snd (serve serverFD w event a)) =
          trace w
            ++ [ActRead (Fd event);
                ActWrite (Fd event)
                  (wire_text Error (snd (handlecommand s now raw)) +:+ newline)]
            ++ closing (write_r a) (Fd event)).
Proof.
  split; [| split].
  - intros s' resp Hcmd.
    destruct (Nat.lt_ge_cases (length (GoStrings.Fields raw)) 2) as [Hlt | Hge].
    { rewrite handlecommand_short in Hcmd by exact Hlt. discriminate. }
    destruct (fields_two_or_more raw Hge) as (cmd & key & args & Hparts).
    exists cmd, key, args. split; [exact Hparts |].
    rewrite (handlecommand_dispatch _ _ _ _ _ _ Hparts) in Hcmd.
    unfold dispatch in Hcmd.
    destruct (String.eqb_spec cmd "SET") as [-> | _].
    { left. split; [reflexivity |].
      destruct args as [| val [| ttl [| extra more]]]; try discriminate.
      - unfold handleSet, Cache.Set_ in Hcmd. inversion Hcmd. reflexivity.
      - eapply handleSetWithTTL_success, Hcmd. }
    destruct (String.eqb_spec cmd "GET") as [-> | _].
    { right. right. left. split; [reflexivity |]. eapply handleGet_success, Hcmd. }
    destruct (String.eqb_spec cmd "DEL") as [-> | _].
    { right. left. split; [reflexivity |]. eapply handleDel_success, Hcmd. }
    destruct (String.eqb_spec cmd "HAS") as [-> | _]; [| discriminate].
    right. right. right. split; [reflexivity |].
    pose proof (handleHas_reply s now key) as Hhas. rewrite Hcmd in Hhas.
    cbn [snd] in Hhas. congruence.
  - intros key args Hparts Hdead.
    rewrite (handlecommand_dispatch _ _ _ _ _ _ Hparts). unfold dispatch.
    cbn [String.eqb Ascii.eqb Bool.eqb]. rewrite handleHas_reply, Hdead. reflexivity.
  - intros serverFD w event a Hfd Hread <- <-.
    rewrite (serve_read_ok _ _ _ _ _ Hfd Hread). cbn [snd].
    destruct (write_r a); cbn; rewrite <- !app_assoc; reflexivity.
Qed.

(** C8. A turn of the loop whose poll fails does the sweep check and the
    poll and nothing else, and the loop takes its next turn; a run in which
    every poll fails never returns from [Start], however long it is. *)
Theorem poll_error_retries serverFD w :
  (forall t rest,
     poll_failed t ->
     loop serverFD w (t :: rest) = loop serverFD (emit ActPoll (cron w t)) rest)
  /\ (forall script,
        Forall poll_failed script -> fst (loop serverFD w script) = Serving)
  /\ (forall s b script,
        boot_ok b serverFD -> w = booted s serverFD ->
        Forall poll_failed script -> fst (Start s b script) = Serving).
Proof.
  assert (Hloop : forall script w0,
            Forall poll_failed script -> fst (loop serverFD w0 script) = Serving).
  { induction script as [| t script IH]; intros w0 Hall; [reflexivity |].
    inversion Hall as [| t' script' [e He] Hrest]; subst.
    rewrite ?loop_cons. rewrite He. apply IH, Hrest. }
  split; [| split].
  - intros t rest [e He]. rewrite ?loop_cons. rewrite He. reflexivity.
  - intros script. apply Hloop.
  - intros s b script Hboot -> Hall.
    rewrite (Start_booted _ _ _ _ Hboot).
    pose proof (Hloop script (booted s serverFD) Hall) as Hserving.
    destruct (loop serverFD (booted s serverFD) script) as [o w']. cbn [fst] in *.
    subst o. reflexivity.
Qed.

(** C10. When the registration of a handle just accepted fails, [Start]
    returns that error; the accepted handle is still open when it returns
    (the only handle closed on the way out is the listening one) and the
    counter keeps the increment made for the accept. *)
Theorem accept_not_rolled_back s b serverFD before w0 t rest pre event a post w1 fd e :
  boot_ok b serverFD ->
  loop serverFD (booted s serverFD) before = (Serving, w0) ->
  poll_r t = inr (pre ++ (event, a) :: post) ->
  serveAll serverFD (emit ActPoll (cron w0 t)) pre = (None, w1) ->
  Fd event = serverFD ->
  accept_r a = inr fd ->
  subscribe_r a = Some e ->
  fd <> serverFD ->
  let res := Start s b (before ++ t :: rest) in
  fst res = Returned (sysError e)
  /\ fd ∈ open_fds (snd res)
  /\ con_clients (srv (snd res)) = incr (con_clients (srv w1))
  /\ trace (snd res) =
       trace w1 ++ [ActAccept; ActSetNonblock fd; ActSubscribe fd;
                    ActMuxClose; ActClose serverFD].
Proof.
  intros Hboot Hbefore Hpoll Hpre Hfd Hacc Hsub Hne res. subst res.
  rewrite (Start_booted _ _ _ _ Hboot), loop_app, Hbefore.
  rewrite ?loop_cons. rewrite Hpoll, serveAll_app, Hpre.
  rewrite ?serveAll_cons.
  rewrite (serve_accept_subscribe_failed _ _ _ _ _ _ Hfd Hacc Hsub).
  cbn [fst snd]. split; [reflexivity |]. split; [| split].
  - cbn. rewrite elem_of_difference, elem_of_union, !elem_of_singleton. auto.
  - reflexivity.
  - cbn. rewrite <- !app_assoc. reflexivity.
Qed.

(** C2 (multiplexer creation). When the creation of the multiplexer fails,
    [Start] does not return the error: it ends the process from inside, and
    the listening handle is still open since no deferred call runs. *)
Theorem mux_creation_failure_exits s b script serverFD e :
  socket_r b = inr serverFD -> setnonblock_r b = None -> parseip_ok b = true ->
  bind_r b = None -> listen_r b = None ->
  mux_r b = Some e ->
  let res := Start s b script in
  fst res = Exited (sysError e)
  /\ (forall e', fst res <> Returned e')
  /\ serverFD ∈ open_fds (snd res)
  /\ trace (snd res) =
       [ActSocket; ActSetNonblock serverFD; ActBind; ActListen; ActMuxNew].
Proof.
  intros Hsock Hnb Hip Hbind Hlisten Hmux res. subst res.
  unfold Start. rewrite Hsock, Hnb, Hip, Hbind, Hlisten, Hmux. cbn [negb fst snd].
  split; [reflexivity |]. split; [discriminate |]. split.
  - cbn. rewrite elem_of_union, elem_of_singleton. auto.
  - reflexivity.
Qed.

(** The two registrations do propagate: a failure to register the listening
    handle makes [Start] return the error after the deferred calls. *)
Lemma listener_registration_failure_returns s b script serverFD e :
  socket_r b = inr serverFD -> setnonblock_r b = None -> parseip_ok b = true ->
  bind_r b = None -> listen_r b = None -> mux_r b = None ->
  subscribe0_r b = Some e ->
  fst (Start s b script) = Returned (sysError e).
Proof.
  intros Hsock Hnb Hip Hbind Hlisten Hmux Hsub.
  unfold Start. rewrite Hsock, Hnb, Hip, Hbind, Hlisten, Hmux, Hsub. reflexivity.
Qed.

Lemma serve_trace_grows serverFD w event a :
  exists tail, trace (snd (serve serverFD w event a)) = trace w ++ tail.
Proof.
  unfold serve.
  destruct (Fd event =? serverFD).
  - destruct (accept_r a) as [e | fd]; [cbn; eauto |].
    destruct (subscribe_r a); cbn; rewrite <- !app_assoc; eauto.
  - destruct (read_r a) as [e | raw]; [cbn; rewrite <- app_assoc; eauto |].
    destruct (handlecommand (srv (emit (ActRead (Fd event)) w)) (clock_r a) raw) as [s r].
    destruct (write_r a); cbn; rewrite <- !app_assoc; eauto.
Qed.

Lemma serveAll_trace_grows serverFD events :
  forall w, exists tail, trace (snd (serveAll serverFD w events)) = trace w ++ tail.
Proof.
  induction events as [| [event a] events IH]; intros w; rewrite ?serveAll_cons.
  - exists []. cbn. rewrite app_nil_r. reflexivity.
  - destruct (serve_trace_grows serverFD w event a) as [tail1 Htail1].
    destruct (serve serverFD w event a) as [[e |] w1]; cbn [snd] in *; [eauto |].
    destruct (IH w1) as [tail2 Htail2]. rewrite Htail2, Htail1, <- app_assoc. eauto.
Qed.

Lemma loop_trace_grows serverFD script :
  forall w, exists tail, trace (snd (loop serverFD w script)) = trace w ++ tail.
Proof.
  induction script as [| t script IH]; intros w; rewrite ?loop_cons.
  - exists []. cbn. rewrite app_nil_r. reflexivity.
  - assert (Hcron : exists tail, trace (emit ActPoll (cron w t)) = trace w ++ tail).
    { unfold cron.
      destruct (lastCronExecTime (srv w) + CronFrequency (srv w) <? now_check t).
      - destruct (Cache.DeleteExpiredKeys (cache (srv w)) (now_cache t)) as [c n].
        cbn. rewrite <- app_assoc. eauto.
      - cbn. eauto. }
    destruct Hcron as [tail0 Htail0].
    destruct (poll_r t) as [e | events].
    + destruct (IH (emit ActPoll (cron w t))) as [tail1 Htail1].
      rewrite Htail1, Htail0, <- app_assoc. eauto.
    + destruct (serveAll_trace_grows serverFD events (emit ActPoll (cron w t)))
        as [tail1 Htail1].
      destruct (serveAll serverFD (emit ActPoll (cron w t)) events) as [[e |] w1];
        cbn [snd] in *.
      * rewrite Htail1, Htail0, <- app_assoc. eauto.
      * destruct (IH w1) as [tail2 Htail2].
        rewrite Htail2, Htail1, Htail0, <- !app_assoc. eauto.
Qed.

(** C4, as the code has it. At the head of every turn of the loop, before
    the poll, the sweep is invoked if and only if the clock reads strictly
    later than [lastCronExecTime + CronFrequency]; the sweep is followed at
    once by the assignment of a fresh reading of the clock to
    [lastCronExecTime]; a turn without sweep leaves the server as it was. *)
Theorem sweep_after_interval serverFD w t rest :
  (swept w t <-> lastCronExecTime (srv w) + CronFrequency (srv w) < now_check t)
  /\ (swept w t ->
        lastCronExecTime (srv (cron w t)) = now_stamp t
        /\ cache (srv (cron w t)) =
             fst (Cache.DeleteExpiredKeys (cache (srv w)) (now_cache t)))
  /\ (~ swept w t -> cron w t = w)
  /\ (exists tail,
        trace (snd (loop serverFD w (t :: rest))) = trace (cron w t) ++ ActPoll :: tail).
Proof.
  assert (Hiff : swept w t <->
                 lastCronExecTime (srv w) + CronFrequency (srv w) < now_check t).
  { unfold swept, cron.
    destruct (Z.ltb_spec (lastCronExecTime (srv w) + CronFrequency (srv w)) (now_check t))
      as [Hlt | Hge].
    - destruct (Cache.DeleteExpiredKeys (cache (srv w)) (now_cache t)) as [c n].
      split; [intros _; exact Hlt | intros _; reflexivity].
    - split; [| lia]. intros Heq. apply (f_equal (@length action)) in Heq.
      rewrite length_app in Heq. cbn in Heq. lia. }
  split; [exact Hiff |]. split; [| split].
  - intros Hswept. apply Hiff in Hswept. unfold cron.
    apply Z.ltb_lt in Hswept. rewrite Hswept.
    destruct (Cache.DeleteExpiredKeys (cache (srv w)) (now_cache t)) as [c n].
    split; reflexivity.
  - intros Hnot. unfold cron.
    destruct (Z.ltb_spec (lastCronExecTime (srv w) + CronFrequency (srv w)) (now_check t))
      as [Hlt | Hge]; [| reflexivity].
    exfalso. apply Hnot, Hiff, Hlt.
  - rewrite ?loop_cons.
    destruct (poll_r t) as [e | events].
    + destruct (loop_trace_grows serverFD rest (emit ActPoll (cron w t))) as [tail Htail].
      exists tail. rewrite Htail. cbn. rewrite <- app_assoc. reflexivity.
    + destruct (serveAll_trace_grows serverFD events (emit ActPoll (cron w t)))
        as [tail1 Htail1].
      destruct (serveAll serverFD (emit ActPoll (cron w t)) events) as [[e |] w1];
        cbn [snd] in *.
      * exists tail1. rewrite Htail1. cbn. rewrite <- app_assoc. reflexivity.
      * destruct (loop_trace_grows serverFD rest w1) as [tail2 Htail2].
        exists (tail1 ++ tail2). rewrite Htail2, Htail1. cbn.
        rewrite <- !app_assoc. reflexivity.
Qed.

End EventLoopFacts.

(* ===================================================================== *)
(** ** The properties at sample inputs                                    *)
(* ===================================================================== *)

(** C4 as the specification words it fails when the clock reads exactly
    [lastCronExecTime + CronFrequency] (here 100 + 10): the interval has
    elapsed in the sense of [>=], and no sweep is invoked. *)
Lemma sweep_at_exact_interval_not_invoked :
  ~ (swept demo_world (idle_tick 110) <->
     lastCronExecTime (srv demo_world) + CronFrequency (srv demo_world)
       <= now_check (idle_tick 110)).
Proof.
  intros [_ Hsweep].
  assert (Hswept : swept demo_world (idle_tick 110)) by (apply Hsweep; cbn; lia).
  unfold swept in Hswept. cbn in Hswept. discriminate Hswept.
Qed.

Lemma sweep_after_interval_witness :
  swept demo_world (idle_tick 111)
  /\ lastCronExecTime (srv (cron demo_world (idle_tick 111))) = 111
  /\ cron demo_world (idle_tick 110) = demo_world.
Proof.
  destruct (sweep_after_interval demo_cacheText demo_sysText 3 demo_world (idle_tick 111) [])
    as (Hiff & Hstamp & _ & _).
  destruct (sweep_after_interval demo_cacheText demo_sysText 3 demo_world (idle_tick 110) [])
    as (Hiff' & _ & Hidle & _).
  assert (Hswept : swept demo_world (idle_tick 111)) by (apply Hiff; cbn; lia).
  split; [exact Hswept |]. split; [apply (Hstamp Hswept) |].
  apply Hidle. intros Hno. apply Hiff' in Hno. cbn in Hno. lia.
Defined.

Lemma set_with_bad_ttl_rejected_witness :
  (exists e, handlecommand demo_server 105 (line "SET k v soon") = (demo_server, inr e)
             /\ invalid_ttl e)
  /\ (exists e, handlecommand demo_server 105 (line "SET k v -5") = (demo_server, inr e)
                /\ invalid_ttl e).
Proof.
  split.
  - destruct (set_with_bad_ttl_rejected demo_server 105 (line "SET k v soon") "k" "v" "soon")
      as (e & Hcmd & Hinv & _); [reflexivity | reflexivity |].
    exists e. split; assumption.
  - destruct (set_with_bad_ttl_rejected demo_server 105 (line "SET k v -5") "k" "v" "-5")
      as (e & Hcmd & Hinv & _); [reflexivity | reflexivity |].
    exists e. split; assumption.
Defined.

Lemma dispatch_of_line_witness :
  handlecommand demo_server 105 (line "PING") =
    (demo_server, inr (errorString "message must atleast have command and key"))
  /\ (exists e, handlecommand demo_server 105 (line "SET a") = (demo_server, inr e))
  /\ (exists e, handlecommand demo_server 105 (line "SET a b c d") = (demo_server, inr e))
  /\ handlecommand demo_server 105 (line "PUT a b") =
       (demo_server, inr (errorString "unknown Command PUT"))
  /\ handlecommand demo_server 105 (line "SET a b") =
       (set_cache demo_server (<["a" := Cache.Entry "b" None]> (cache demo_server)),
        inl "Success").
Proof.
  split; [| split; [| split; [| split]]].
  - apply (dispatch_of_line demo_server 105 (line "PING")).
    apply Nat.ltb_lt. reflexivity.
  - apply (proj1 (proj2 (dispatch_of_line demo_server 105 (line "SET a"))) ["a"]);
      [reflexivity | vm_compute; discriminate | vm_compute; discriminate].
  - apply (proj1 (proj2 (dispatch_of_line demo_server 105 (line "SET a b c d")))
             ["a"; "b"; "c"; "d"]); [reflexivity | vm_compute; discriminate | vm_compute; discriminate].
  - apply (proj1 (proj2 (proj2 (dispatch_of_line demo_server 105 (line "PUT a b"))))
             "PUT" "a" ["b"]); [reflexivity | discriminate ..].
  - apply (proj2 (proj2 (proj2 (dispatch_of_line demo_server 105 (line "SET a b")))) "a" "b").
    reflexivity.
Defined.

Lemma tokens_after_key_ignored_witness :
  handlecommand demo_server 105 (line "GET foo extra") =
    handlecommand demo_server 105 (line "GET foo")
  /\ handlecommand demo_server 105 (line "GET foo extra") = handleGet demo_server 105 "foo".
Proof.
  apply (tokens_after_key_ignored demo_server 105 (line "GET foo extra") (line "GET foo")
           "GET" "foo" "extra" []); [left; reflexivity | reflexivity | reflexivity].
Defined.

Lemma dispatch_error_written_back_witness :
  let a := client_answers (inr (line "GET missing")) None in
  let res := serve demo_cacheText demo_sysText 3 demo_world (mkEvent 7 1) a in
  fst res = None
  /\ trace (snd res) = [ActRead 7; ActWrite 7 (line "key not found: missing")]
  /\ open_fds (snd res) = open_fds demo_world
  /\ monitored (snd res) = monitored demo_world
  /\ con_clients (srv (snd res)) = 1.
Proof.
  intros a res.
  destruct (dispatch_error_written_back demo_cacheText demo_sysText 3 demo_world
              (mkEvent 7 1) a (line "GET missing") demo_server
              (cacheError (Cache.NotFound "missing")))
    as (Hgo & Htrace & Hkept); [discriminate | reflexivity | reflexivity |].
  destruct (Hkept eq_refl) as (Hopen & Hmon & Hcount & _).
  split; [exact Hgo |]. split; [exact Htrace |]. split; [exact Hopen |].
  split; [exact Hmon | exact Hcount].
Defined.

Lemma client_io_failure_closes_witness :
  let gone := serve demo_cacheText demo_sysText 3 demo_world (mkEvent 7 1)
                (client_answers (inl EOF) None) in
  let stuck := serve demo_cacheText demo_sysText 3 demo_world (mkEvent 7 1)
                 (client_answers (inr (line "GET foo")) (Some EAGAIN)) in
  (fst gone = None
   /\ trace (snd gone) = [ActRead 7; ActClose 7]
   /\ (7 ∉ open_fds (snd gone))
   /\ con_clients (srv (snd gone)) = 0)
  /\ (fst stuck = None
      /\ (7 ∉ open_fds (snd stuck))
      /\ con_clients (srv (snd stuck)) = 0).
Proof.
  intros gone stuck. split.
  - destruct (client_io_failure_closes demo_cacheText demo_sysText 3 demo_world
                (mkEvent 7 1) (client_answers (inl EOF) None) []) as [Hread _];
      [discriminate |].
    destruct (Hread EOF eq_refl) as (Hgo & Htrace & Hopen & _ & _ & Hcount & _).
    split; [exact Hgo |]. split; [exact Htrace |]. split; [exact Hopen |].
    apply Hcount. vm_compute. split; reflexivity.
  - destruct (client_io_failure_closes demo_cacheText demo_sysText 3 demo_world
                (mkEvent 7 1) (client_answers (inr (line "GET foo")) (Some EAGAIN)) [])
      as [_ Hwrite]; [discriminate |].
    destruct (Hwrite (line "GET foo") EAGAIN eq_refl eq_refl)
      as (Hgo & _ & Hopen & _ & _ & Hcount & _).
    split; [exact Hgo |]. split; [exact Hopen |].
    apply Hcount. vm_compute. split; reflexivity.
Defined.

Lemma reply_payloads_witness :
  (exists cmd key args,
     GoStrings.Fields (line "GET foo") = cmd :: key :: args
     /\ ((cmd = "SET" /\ "bar" = "Success")
         \/ (cmd = "DEL" /\ "bar" = "Success")
         \/ (cmd = "GET" /\ exists e, cache demo_server !! key = Some e
               /\ Cache.expired 105 e = false /\ "bar" = Cache.value e)
         \/ (cmd = "HAS" /\ "bar" = if live (cache demo_server) 105 key then "Yes" else "No")))
  /\ snd (handlecommand demo_server 105 (line "HAS missing")) = inl "No"
  /\ trace (snd (serve demo_cacheText demo_sysText 3 demo_world (mkEvent 7 1)
                   (client_answers (inr (line "GET foo")) None))) =
       [ActRead 7; ActWrite 7 (line "bar")].
Proof.
  split; [| split].
  - apply (proj1 (reply_payloads demo_cacheText demo_sysText demo_server 105 (line "GET foo"))
             demo_server "bar").
    reflexivity.
  - apply (proj1 (proj2 (reply_payloads demo_cacheText demo_sysText demo_server 105
                           (line "HAS missing"))) "missing" []); reflexivity.
  - apply (proj2 (proj2 (reply_payloads demo_cacheText demo_sysText demo_server 105
                           (line "GET foo"))) 3 demo_world (mkEvent 7 1)
             (client_answers (inr (line "GET foo")) None));
      [discriminate | reflexivity | reflexivity | reflexivity].
Defined.

Lemma poll_error_retries_witness :
  fst (Start demo_cacheText demo_sysText demo_server demo_boot
         [idle_tick 105; idle_tick 111; idle_tick 112]) = Serving.
Proof.
  apply (proj2 (proj2 (poll_error_retries demo_cacheText demo_sysText 3
                         (booted demo_server 3))) demo_server demo_boot).
  - repeat split.
  - reflexivity.
  - repeat constructor; exists EAGAIN; reflexivity.
Defined.

Lemma accept_not_rolled_back_witness :
  let t := mkTick 105 105 105
             (inr [(mkEvent 3 1, mkAnswers (inr 8) (Some (Errno 28)) (inl EAGAIN) 105 None)]) in
  let res := Start demo_cacheText demo_sysText demo_server demo_boot [t] in
  fst res = Returned (sysError (Errno 28))
  /\ 8 ∈ open_fds (snd res)
  /\ con_clients (srv (snd res)) = 2.
Proof.
  intros t res.
  destruct (accept_not_rolled_back demo_cacheText demo_sysText demo_server demo_boot 3 []
              (booted demo_server 3) t [] [] (mkEvent 3 1)
              (mkAnswers (inr 8) (Some (Errno 28)) (inl EAGAIN) 105 None) []
              (emit ActPoll (cron (booted demo_server 3) t)) 8 (Errno 28))
    as (Hret & Hopen & Hcount & _);
    [repeat split | reflexivity | reflexivity | reflexivity | reflexivity | reflexivity
     | reflexivity | discriminate |].
  split; [exact Hret |]. split; [exact Hopen | exact Hcount].
Defined.

Lemma mux_creation_failure_exits_witness :
  let b := mkBoot (inr 3) None true None None (Some (Errno 24)) None in
  let res := Start demo_cacheText demo_sysText demo_server b [idle_tick 105] in
  fst res = Exited (sysError (Errno 24))
  /\ (forall e', fst res <> Returned e')
  /\ 3 ∈ open_fds (snd res).
Proof.
  intros b res.
  destruct (mux_creation_failure_exits demo_cacheText demo_sysText demo_server b
              [idle_tick 105] 3 (Errno 24))
    as (Hexit & Hnot & Hopen & _); try reflexivity.
  split; [exact Hexit |]. split; [exact Hnot | exact Hopen].
Defined.

(* ===================================================================== *)
(** ** Further properties of the dispatcher                               *)
(* ===================================================================== *)

Lemma handler_only_sets_cache s now cmd key args :
  exists c, fst (dispatch s now cmd key args) = set_cache s c.
Proof.
  assert (Hsame : exists c, s = set_cache s c).
  { exists (cache s). symmetry. apply set_cache_same. }
  unfold dispatch, handleSet, handleSetWithTTL, handleGet, handleDel, handleHas,
    Cache.Set_, Cache.SetWithTTL, Cache.Get, Cache.Delete, Cache.Has.
  repeat (match goal with
          | |- context [match ?x with _ => _ end] => destruct x
          end; cbn [fst]; eauto).
Qed.

Lemma handlecommand_frame s now raw :
  exists c,
    fst (handlecommand s now raw) = set_cache s c
    /\ Host (fst (handlecommand s now raw)) = Host s
    /\ Port (fst (handlecommand s now raw)) = Port s
    /\ CronFrequency (fst (handlecommand s now raw)) = CronFrequency s
    /\ lastCronExecTime (fst (handlecommand s now raw)) = lastCronExecTime s
    /\ con_clients (fst (handlecommand s now raw)) = con_clients s.
Proof.
  assert (Hset : exists c, fst (handlecommand s now raw) = set_cache s c).
  { destruct (Nat.lt_ge_cases (length (GoStrings.Fields raw)) 2) as [Hlt | Hge].
    - rewrite handlecommand_short by exact Hlt. exists (cache s).
      symmetry. apply set_cache_same.
    - destruct (fields_two_or_more raw Hge) as (cmd & key & args & Hparts).
      rewrite (handlecommand_dispatch _ _ _ _ _ _ Hparts).
      apply handler_only_sets_cache. }
  destruct Hset as [c Hc]. exists c. rewrite Hc. repeat split.
Qed.

(** Whatever the line and whatever the cache answers, [handlecommand]
    gives back the server it was given with at most the cache replaced:
    address, sweep settings and connection counter are as before. *)
Theorem handlecommand_changes_only_cache s now raw :
  exists c,
    fst (handlecommand s now raw) = set_cache s c
    /\ Host (fst (handlecommand s now raw)) = Host s
    /\ Port (fst (handlecommand s now raw)) = Port s
    /\ CronFrequency (fst (handlecommand s now raw)) = CronFrequency s
    /\ lastCronExecTime (fst (handlecommand s now raw)) = lastCronExecTime s
    /\ con_clients (fst (handlecommand s now raw)) = con_clients s.
Proof.
  destruct (handlecommand_frame s now raw) as (c & Hc & Hrest).
  exists c. split; [exact Hc | exact Hrest].
Qed.

(** An error of a dispatch is either one of the four refusals that
    [server.go] words itself, and then the server is exactly as before (the
    cache was not called or refused nothing), or an error handed back by
    the cache; it is never an error of the system. *)
Theorem dispatch_errors_classified s now raw s' e :
  handlecommand s now raw = (s', inr e) ->
  (refusal e /\ s' = s) \/ (exists ce, e = cacheError ce).
Proof.
  intros Hcmd.
  destruct (Nat.lt_ge_cases (length (GoStrings.Fields raw)) 2) as [Hlt | Hge].
  { rewrite handlecommand_short in Hcmd by exact Hlt. inversion Hcmd.
    left. split; [left; reflexivity | reflexivity]. }
  destruct (fields_two_or_more raw Hge) as (cmd & key & args & Hparts).
  rewrite (handlecommand_dispatch _ _ _ _ _ _ Hparts) in Hcmd.
  unfold dispatch in Hcmd.
  destruct (String.eqb cmd "SET").
  { destruct args as [| val [| ttl [| extra more]]].
    - inversion Hcmd. left. split; [right; left; reflexivity | reflexivity].
    - unfold handleSet, Cache.Set_ in Hcmd. discriminate Hcmd.
    - unfold handleSetWithTTL, Cache.SetWithTTL in Hcmd.
      destruct (GoStrings.Atoi ttl) as [n |].
      + destruct (n <? 0); inversion Hcmd. right. eauto.
      + inversion Hcmd. left. split; [right; right; left; reflexivity | reflexivity].
    - inversion Hcmd. left. split; [right; left; reflexivity | reflexivity]. }
  destruct (String.eqb cmd "GET").
  { unfold handleGet, Cache.Get in Hcmd.
    destruct (cache s !! key) as [en |]; [destruct (Cache.expired now en) |];
      inversion Hcmd; right; eauto. }
  destruct (String.eqb cmd "DEL").
  { unfold handleDel, Cache.Delete in Hcmd.
    destruct (cache s !! key); inversion Hcmd; right; eauto. }
  destruct (String.eqb cmd "HAS").
  { unfold handleHas, Cache.Has in Hcmd.
    destruct (cache s !! key) as [en |]; [destruct (Cache.expired now en) |];
      discriminate Hcmd. }
  inversion Hcmd. left. split; [| reflexivity].
  right. right. right. exists cmd. reflexivity.
Qed.

(** A TTL token that is an integer outside the range of [int] is refused
    with the error [invalid TTl], though it may be a non-negative integer:
    the cache is not called and the server is as before. *)
Theorem ttl_out_of_range_refused s now raw key val ttl n :
  GoStrings.Fields raw = ["SET"; key; val; ttl] ->
  GoStrings.decimal ttl = Some n ->
  n < GoStrings.minInt \/ GoStrings.maxInt < n ->
  handlecommand s now raw = (s, inr (errorString "invalid TTl")).
Proof.
  intros Hparts Hdec Hrange.
  rewrite (handlecommand_dispatch _ _ _ _ _ _ Hparts).
  unfold dispatch. cbn [String.eqb Ascii.eqb Bool.eqb].
  unfold handleSetWithTTL, GoStrings.Atoi. rewrite Hdec.
  destruct (Z.leb_spec GoStrings.minInt n) as [Hlo | Hlo];
    destruct (Z.leb_spec n GoStrings.maxInt) as [Hhi | Hhi];
    cbn [andb]; try reflexivity.
  lia.
Qed.

(** *** The tokens of a line *)

Lemma ascii_space_is_low ws : GoStrings.asciiSpace ws = true -> GoStrings.code ws <= 32.
Proof.
  unfold GoStrings.asciiSpace. cbv zeta.
  destruct (Z.leb_spec 9 (GoStrings.code ws)), (Z.leb_spec (GoStrings.code ws) 13),
    (Z.eqb_spec (GoStrings.code ws) 32); cbn; intros Hsp; try discriminate; lia.
Qed.

Lemma space2_needs_high c ws : GoStrings.code ws <= 32 -> GoStrings.space2 c ws = false.
Proof.
  intros Hlow. unfold GoStrings.space2.
  destruct (Z.eqb_spec (GoStrings.code ws) 133), (Z.eqb_spec (GoStrings.code ws) 160);
    lia.
Qed.

Lemma space3_needs_high c0 c1 ws :
  GoStrings.code ws <= 32 -> GoStrings.space3 c0 c1 ws = false.
Proof.
  intros Hlow. unfold GoStrings.space3.
  destruct (Z.eqb_spec (GoStrings.code ws) 128), (Z.leb_spec 128 (GoStrings.code ws)),
    (Z.eqb_spec (GoStrings.code ws) 168), (Z.eqb_spec (GoStrings.code ws) 169),
    (Z.eqb_spec (GoStrings.code ws) 175), (Z.eqb_spec (GoStrings.code ws) 159);
    lia.
Qed.

Lemma append_nil (x : string) : EmptyString +:+ x = x.
Proof. reflexivity. Qed.

Lemma append_cons c (r x : string) : String c r +:+ x = String c (r +:+ x).
Proof. reflexivity. Qed.

Lemma space_width_app_space c r ws :
  GoStrings.asciiSpace ws = true ->
  GoStrings.space_width (String c (r +:+ String ws EmptyString)) =
    GoStrings.space_width (String c r).
Proof.
  intros Hsp. pose proof (ascii_space_is_low ws Hsp) as Hlow.
  destruct r as [| c1 [| c2 r2]]; rewrite ?append_cons, ?append_nil;
    cbn [GoStrings.space_width].
  - rewrite (space2_needs_high c ws Hlow). reflexivity.
  - rewrite (space3_needs_high c c1 ws Hlow).
    destruct (GoStrings.asciiSpace c), (GoStrings.space2 c c1); reflexivity.
  - reflexivity.
Qed.

Lemma fields_from_app_space ws :
  GoStrings.asciiSpace ws = true ->
  forall s skip cur,
    GoStrings.fields_from (s +:+ String ws EmptyString) skip cur =
      GoStrings.fields_from s skip cur.
Proof.
  intros Hsp. induction s as [| c r IH]; intros skip cur.
  - rewrite append_nil. cbn [GoStrings.fields_from GoStrings.space_width].
    destruct skip as [| k]; [| reflexivity].
    rewrite Hsp. cbn [GoStrings.fields_from]. apply app_nil_r.
  - rewrite append_cons. cbn [GoStrings.fields_from].
    destruct skip as [| k]; [| apply IH].
    rewrite (space_width_app_space c r ws Hsp).
    destruct (GoStrings.space_width (String c r)); [apply IH | rewrite IH; reflexivity].
Qed.

Lemma no_ascii_space_snoc cur c :
  no_ascii_space cur = true ->
  GoStrings.asciiSpace c = false ->
  no_ascii_space (cur +:+ String c EmptyString) = true.
Proof.
  intros Hcur Hc. induction cur as [| c0 cur IH];
    rewrite ?append_cons, ?append_nil; cbn [no_ascii_space] in *.
  - rewrite Hc. reflexivity.
  - apply andb_true_iff in Hcur as [Hc0 Hrest]. rewrite Hc0, (IH Hrest). reflexivity.
Qed.

Lemma snoc_not_empty cur c : cur +:+ String c EmptyString <> EmptyString.
Proof. destruct cur; discriminate. Qed.

Lemma flush_tokens cur :
  no_ascii_space cur = true -> Forall is_token (GoStrings.flush cur).
Proof.
  intros Hcur. destruct cur as [| c r]; cbn; constructor; [| constructor].
  split; [discriminate | exact Hcur].
Qed.

Lemma fields_from_tokens s :
  forall skip cur,
    no_ascii_space cur = true ->
    Forall is_token (GoStrings.fields_from s skip cur).
Proof.
  induction s as [| c r IH]; intros skip cur Hcur; cbn [GoStrings.fields_from].
  - apply flush_tokens, Hcur.
  - destruct skip as [| k]; [| apply IH, Hcur].
    destruct (GoStrings.space_width (String c r)) eqn:Hwidth.
    + apply IH. apply no_ascii_space_snoc; [exact Hcur |].
      cbn [GoStrings.space_width] in Hwidth.
      destruct (GoStrings.asciiSpace c); [discriminate | reflexivity].
    + apply Forall_app. split; [apply flush_tokens, Hcur | apply IH; reflexivity].
Qed.

Lemma fields_from_space ws rest cur :
  GoStrings.asciiSpace ws = true ->
  GoStrings.fields_from (String ws rest) 0 cur =
    GoStrings.flush cur ++ GoStrings.fields_from rest 0 EmptyString.
Proof.
  intros Hsp. cbn [GoStrings.fields_from GoStrings.space_width]. rewrite Hsp. reflexivity.
Qed.

(** White space around the tokens has no effect on what a line does:
    neither white space after the last token, such as the newline
    [ReadBytes] leaves at the end of the line or a carriage return before
    it, nor white space before the command. *)
Theorem surrounding_space_ignored s now raw ws :
  GoStrings.asciiSpace ws = true ->
  handlecommand s now (raw +:+ String ws EmptyString) = handlecommand s now raw
  /\ handlecommand s now (String ws raw) = handlecommand s now raw.
Proof.
  intros Hsp. unfold handlecommand, GoStrings.Fields. split.
  - rewrite (fields_from_app_space ws Hsp). reflexivity.
  - rewrite (fields_from_space ws raw EmptyString Hsp). reflexivity.
Qed.

Lemma append_snoc (cur : string) c (r : string) :
  (cur +:+ String c EmptyString) +:+ r = cur +:+ String c r.
Proof.
  induction cur as [| c0 cur IH]; rewrite ?append_cons, ?append_nil; [reflexivity |].
  rewrite IH. reflexivity.
Qed.

Lemma append_empty (cur : string) : cur +:+ EmptyString = cur.
Proof.
  induction cur as [| c0 cur IH]; rewrite ?append_cons, ?append_nil; [reflexivity |].
  rewrite IH. reflexivity.
Qed.

Lemma space_width_plain c r :
  plain_byte c = true -> GoStrings.space_width (String c r) = 0%nat.
Proof.
  unfold plain_byte. cbv zeta. intros Hplain.
  apply andb_true_iff in Hplain as [Hsp Hlead].
  apply negb_true_iff in Hsp. apply negb_true_iff in Hlead.
  repeat (apply orb_false_iff in Hlead as [Hlead ?]).
  cbn [GoStrings.space_width]. rewrite Hsp.
  assert (H2 : forall c1, GoStrings.space2 c c1 = false).
  { intros c1. unfold GoStrings.space2. rewrite Hlead. reflexivity. }
  assert (H3 : forall c1 c2, GoStrings.space3 c c1 c2 = false).
  { intros c1 c2. unfold GoStrings.space3. cbv zeta beta iota.
    repeat match goal with Heq : (_ =? _) = false |- _ => rewrite Heq; clear Heq end.
    reflexivity. }
  destruct r as [| c1 [| c2 r2]]; rewrite ?H2, ?H3; reflexivity.
Qed.

Lemma fields_from_plain tok :
  plain tok = true ->
  forall rest cur,
    GoStrings.fields_from (tok +:+ rest) 0 cur =
      GoStrings.fields_from rest 0 (cur +:+ tok).
Proof.
  induction tok as [| c r IH]; intros Hplain rest cur.
  - rewrite append_nil, append_empty. reflexivity.
  - cbn [plain] in Hplain. apply andb_true_iff in Hplain as [Hc Hr].
    rewrite append_cons. cbn [GoStrings.fields_from].
    rewrite (space_width_plain c (r +:+ rest) Hc), (IH Hr), append_snoc. reflexivity.
Qed.

Lemma flush_token tok : tok <> "" -> GoStrings.flush tok = [tok].
Proof. destruct tok; [congruence | reflexivity]. Qed.

Lemma fields_join tokens :
  Forall plain_token tokens -> GoStrings.Fields (join_line tokens) = tokens.
Proof.
  induction 1 as [| tok rest [Hne Hplain] Hrest IH]; [reflexivity |].
  unfold GoStrings.Fields in *. cbn [join_line].
  destruct rest as [| tok2 rest].
  - rewrite (fields_from_plain tok Hplain), append_nil.
    unfold newline. rewrite (fields_from_space (ascii_of_nat 10) EmptyString tok eq_refl).
    rewrite (flush_token tok Hne). reflexivity.
  - rewrite (fields_from_plain tok Hplain), append_nil.
    rewrite (fields_from_space " "%char _ tok eq_refl), (flush_token tok Hne), IH.
    reflexivity.
Qed.

(** A line made of tokens of plain bytes, with single spaces between them
    and a newline at the end, is split back into exactly these tokens, and
    is dispatched on them: the first is the command, the second the key. *)
Theorem line_of_tokens_round_trip tokens :
  Forall plain_token tokens ->
  GoStrings.Fields (join_line tokens) = tokens
  /\ (forall s now,
        handlecommand s now (join_line tokens) =
          match tokens with
          | cmd :: key :: args => dispatch s now cmd key args
          | _ => (s, inr (errorString "message must atleast have command and key"))
          end).
Proof.
  intros Hplain. pose proof (fields_join tokens Hplain) as Hfields.
  split; [exact Hfields |]. intros s now.
  destruct tokens as [| cmd [| key args]].
  - apply handlecommand_short. rewrite Hfields. cbn. lia.
  - apply handlecommand_short. rewrite Hfields. cbn. lia.
  - apply handlecommand_dispatch, Hfields.
Qed.

(** The command, the key and every further token that [handlecommand]
    takes from a line are non-empty and free of ASCII white space: no
    handler is ever called with an empty key or value. *)
Theorem parts_are_tokens raw :
  Forall is_token (GoStrings.Fields raw)
  /\ (forall cmd key args,
        GoStrings.Fields raw = cmd :: key :: args ->
        is_token cmd /\ is_token key /\ Forall is_token args).
Proof.
  assert (Hall : Forall is_token (GoStrings.Fields raw)).
  { apply fields_from_tokens. reflexivity. }
  split; [exact Hall |].
  intros cmd key args Hparts. rewrite Hparts in Hall.
  inversion Hall as [| ? ? Hcmd Hrest]; subst.
  inversion Hrest as [| ? ? Hkey Hargs]; subst. auto.
Qed.

(* ===================================================================== *)
(** ** Further equations of the event loop                                *)
(* ===================================================================== *)

Lemma clients_delta_app t1 t2 :
  clients_delta (t1 ++ t2) = clients_delta t1 + clients_delta t2.
Proof.
  unfold clients_delta.
  induction t1 as [| act t1 IH]; cbn [app fold_right]; [reflexivity |].
  rewrite IH. lia.
Qed.

Lemma sweeps_delta tail :
  Forall (fun act => act = ActSweep) tail -> clients_delta tail = 0.
Proof.
  unfold clients_delta.
  induction 1 as [| act tl -> _ IH]; cbn [fold_right client_change]; [reflexivity |].
  rewrite IH. reflexivity.
Qed.

Lemma counter_step n0 n1 n2 d1 d2 :
  n1 mod uintSize = (n0 + d1) mod uintSize ->
  n2 mod uintSize = (n1 + d2) mod uintSize ->
  n2 mod uintSize = (n0 + (d1 + d2)) mod uintSize.
Proof.
  intros H1 H2. rewrite H2, <- Z.add_mod_idemp_l, H1, Z.add_mod_idemp_l by (cbv; lia).
  f_equal. lia.
Qed.

Lemma incr_in_range n : 0 <= incr n < uintSize.
Proof. unfold incr. apply Z.mod_pos_bound. reflexivity. Qed.

Lemma decr_in_range n : 0 <= decr n < uintSize.
Proof. unfold decr. apply Z.mod_pos_bound. reflexivity. Qed.

Lemma kept_refl fd w : kept fd w w.
Proof. split; auto. Qed.

Lemma kept_trans fd w1 w2 w3 : kept fd w1 w2 -> kept fd w2 w3 -> kept fd w1 w3.
Proof. intros [Ho1 Hm1] [Ho2 Hm2]. split; auto. Qed.

Lemma same_config_refl s : same_config s s.
Proof. repeat split. Qed.

Lemma same_config_trans s1 s2 s3 :
  same_config s1 s2 -> same_config s2 s3 -> same_config s1 s3.
Proof.
  intros (Hh1 & Hp1 & Hf1) (Hh2 & Hp2 & Hf2).
  repeat split; congruence.
Qed.

(** The sweep check touches the cache and [lastCronExecTime] only. *)
Lemma cron_effects w t :
  exists tail,
    trace (cron w t) = trace w ++ tail
    /\ Forall (fun act => act = ActSweep) tail
    /\ open_fds (cron w t) = open_fds w
    /\ monitored (cron w t) = monitored w
    /\ con_clients (srv (cron w t)) = con_clients (srv w)
    /\ same_config (srv w) (srv (cron w t))
    /\ (lastCronExecTime (srv (cron w t)) = lastCronExecTime (srv w)
        \/ lastCronExecTime (srv (cron w t)) = now_stamp t).
Proof.
  unfold cron.
  destruct (lastCronExecTime (srv w) + CronFrequency (srv w) <? now_check t).
  - destruct (Cache.DeleteExpiredKeys (cache (srv w)) (now_cache t)) as [c n].
    exists [ActSweep]. cbn. repeat split; auto.
  - exists []. rewrite app_nil_r. repeat split; auto.
Qed.

Section EventLoopRuns.

Variable cacheText : Cache.error -> string.
Variable sysText : syserr -> string.

Local Abbreviation Error := (Error cacheText sysText).
Local Abbreviation serve := (serve cacheText sysText).
Local Abbreviation serveAll := (serveAll cacheText sysText).
Local Abbreviation loop := (loop cacheText sysText).
Local Abbreviation Start := (Start cacheText sysText).

Lemma serve_accept_failed serverFD w event a e :
  Fd event = serverFD ->
  accept_r a = inl e ->
  serve serverFD w event a = (None, emit ActAccept w).
Proof.
  intros Hfd Hacc. unfold serve.
  apply Z.eqb_eq in Hfd. rewrite Hfd, Hacc. reflexivity.
Qed.

Lemma serve_accept_ok serverFD w event a fd :
  Fd event = serverFD ->
  accept_r a = inr fd ->
  subscribe_r a = None ->
  serve serverFD w event a =
    (None,
     subscribed fd (emit (ActSubscribe fd) (emit (ActSetNonblock fd)
       (clients_incr (opened fd (emit ActAccept w)))))).
Proof.
  intros Hfd Hacc Hsub. unfold serve.
  apply Z.eqb_eq in Hfd. rewrite Hfd, Hacc, Hsub. reflexivity.
Qed.

Lemma incr_mod n : incr n mod uintSize = (n + 1) mod uintSize.
Proof. unfold incr. apply Z.mod_mod. discriminate. Qed.

Lemma decr_mod n : decr n mod uintSize = (n + -1) mod uintSize.
Proof. unfold decr. rewrite Z.mod_mod by discriminate. f_equal. Qed.

(** What serving one ready handle does to the world. *)
Lemma serve_effects serverFD w event a :
  exists tail,
    trace (snd (serve serverFD w event a)) = trace w ++ tail
    /\ Forall (loop_action serverFD) tail
    /\ con_clients (srv (snd (serve serverFD w event a))) mod uintSize =
         (con_clients (srv w) + clients_delta tail) mod uintSize
    /\ (clients_in_range w -> clients_in_range (snd (serve serverFD w event a)))
    /\ same_config (srv w) (srv (snd (serve serverFD w event a)))
    /\ lastCronExecTime (srv (snd (serve serverFD w event a))) = lastCronExecTime (srv w)
    /\ (forall fd, fd <> Fd event \/ fd = serverFD ->
          kept fd w (snd (serve serverFD w event a))).
Proof.
  destruct (Z.eq_dec (Fd event) serverFD) as [Hfd | Hfd].
  - destruct (accept_r a) as [e | nfd] eqn:Hacc.
    + rewrite (serve_accept_failed _ _ _ _ _ Hfd Hacc). cbn [snd].
      exists [ActAccept]. cbn.
      split; [reflexivity |]. split; [repeat constructor |].
      split; [f_equal; lia |]. split; [auto |].
      split; [repeat split |]. split; [reflexivity |].
      intros fd _. split; intros Hin; exact Hin.
    + assert (Hkept : forall w1 : World,
                open_fds w1 = {[nfd]} ∪ open_fds w ->
                (monitored w1 = monitored w \/ monitored w1 = {[nfd]} ∪ monitored w) ->
                forall fd : Z, kept fd w w1).
      { intros w1 Hopen Hmon fd. split; intros Hin.
        - rewrite Hopen. apply elem_of_union. right. exact Hin.
        - destruct Hmon as [-> | ->]; [exact Hin | apply elem_of_union; right; exact Hin]. }
      destruct (subscribe_r a) as [e |] eqn:Hsub.
      * rewrite (serve_accept_subscribe_failed _ _ _ _ _ _ _ _ Hfd Hacc Hsub). cbn [snd].
        exists [ActAccept; ActSetNonblock nfd; ActSubscribe nfd]. cbn.
        split; [rewrite <- !app_assoc; reflexivity |].
        split; [repeat constructor |].
        split; [rewrite incr_mod; f_equal; lia |].
        split; [intros _; apply incr_in_range |].
        split; [repeat split |]. split; [reflexivity |].
        intros fd _. apply Hkept; cbn; auto.
      * rewrite (serve_accept_ok _ _ _ _ _ Hfd Hacc Hsub). cbn [snd].
        exists [ActAccept; ActSetNonblock nfd; ActSubscribe nfd]. cbn.
        split; [rewrite <- !app_assoc; reflexivity |].
        split; [repeat constructor |].
        split; [rewrite incr_mod; f_equal; lia |].
        split; [intros _; apply incr_in_range |].
        split; [repeat split |]. split; [reflexivity |].
        intros fd _. apply Hkept; cbn; auto.
  - assert (Hkept : forall w1 : World,
              open_fds w1 = open_fds w ∖ {[Fd event]} ->
              monitored w1 = monitored w ∖ {[Fd event]} ->
              forall fd : Z, fd <> Fd event \/ fd = serverFD -> kept fd w w1).
    { intros w1 Hopen Hmon fd Hwhich.
      assert (Hne : fd <> Fd event) by (destruct Hwhich; congruence).
      split; intros Hin; [rewrite Hopen | rewrite Hmon];
        apply elem_of_difference; (split; [exact Hin |]);
        rewrite elem_of_singleton; exact Hne. }
    destruct (read_r a) as [e | raw] eqn:Hread.
    + rewrite (serve_read_failed _ _ _ _ _ _ _ Hfd Hread). cbn [snd].
      exists [ActRead (Fd event); ActClose (Fd event)]. cbn.
      split; [rewrite <- !app_assoc; reflexivity |].
      split; [repeat constructor; exact Hfd |].
      split; [rewrite decr_mod; f_equal; lia |].
      split; [intros _; apply decr_in_range |].
      split; [repeat split |]. split; [reflexivity |].
      apply Hkept; reflexivity.
    + rewrite (serve_read_ok _ _ _ _ _ _ _ Hfd Hread). cbv zeta. cbn [snd].
      destruct (handlecommand_frame (srv w) (clock_r a) raw)
        as (c & _ & Hhost & Hport & Hfreq & Hlast & Hcount).
      set (hc := handlecommand (srv w) (clock_r a) raw) in *.
      destruct (write_r a) as [e |].
      * exists [ActRead (Fd event);
                ActWrite (Fd event) (wire_text Error (snd hc) +:+ newline);
                ActClose (Fd event)]. cbn.
        split; [rewrite <- !app_assoc; reflexivity |].
        split; [repeat constructor; eauto |].
        split; [rewrite decr_mod, Hcount; f_equal; lia |].
        split; [intros _; apply decr_in_range |].
        split; [repeat split; assumption |]. split; [exact Hlast |].
        apply Hkept; reflexivity.
      * exists [ActRead (Fd event);
                ActWrite (Fd event) (wire_text Error (snd hc) +:+ newline)]. cbn.
        split; [rewrite <- !app_assoc; reflexivity |].
        split; [repeat constructor; eauto |].
        split; [rewrite Hcount; f_equal; lia |].
        split; [unfold clients_in_range; cbn; rewrite Hcount; auto |].
        split; [repeat split; assumption |]. split; [exact Hlast |].
        intros fd _. split; intros Hin; exact Hin.
Qed.

Lemma serveAll_effects serverFD events :
  forall w,
  exists tail,
    trace (snd (serveAll serverFD w events)) = trace w ++ tail
    /\ Forall (loop_action serverFD) tail
    /\ con_clients (srv (snd (serveAll serverFD w events))) mod uintSize =
         (con_clients (srv w) + clients_delta tail) mod uintSize
    /\ (clients_in_range w -> clients_in_range (snd (serveAll serverFD w events)))
    /\ same_config (srv w) (srv (snd (serveAll serverFD w events)))
    /\ lastCronExecTime (srv (snd (serveAll serverFD w events))) = lastCronExecTime (srv w)
    /\ (forall fd, fd = serverFD \/ ~ reported_in fd events ->
          kept fd w (snd (serveAll serverFD w events))).
Proof.
  induction events as [| [event a] events IH]; intros w.
  - exists []. cbn. rewrite app_nil_r.
    split; [reflexivity |]. split; [constructor |].
    split; [f_equal; lia |]. split; [auto |].
    split; [apply same_config_refl |]. split; [reflexivity |].
    intros fd _. apply kept_refl.
  - rewrite serveAll_cons.
    destruct (serve_effects serverFD w event a)
      as (tail1 & Htr1 & Hact1 & Hcnt1 & Hrng1 & Hcfg1 & Hlast1 & Hkept1).
    assert (Hhead : forall fd, fd = serverFD \/ ~ reported_in fd ((event, a) :: events) ->
                      fd <> Fd event \/ fd = serverFD).
    { intros fd [-> | Hnot]; [right; reflexivity | left].
      intros ->. apply Hnot. constructor. reflexivity. }
    destruct (serve serverFD w event a) as [[e |] w1]; cbn [snd] in *.
    + exists tail1. repeat (split; [assumption |]).
      intros fd Hfd. apply Hkept1, Hhead, Hfd.
    + destruct (IH w1)
        as (tail2 & Htr2 & Hact2 & Hcnt2 & Hrng2 & Hcfg2 & Hlast2 & Hkept2).
      exists (tail1 ++ tail2).
      split; [rewrite Htr2, Htr1, app_assoc; reflexivity |].
      split; [apply Forall_app; split; assumption |].
      split; [rewrite clients_delta_app; eapply counter_step; eassumption |].
      split; [auto |].
      split; [eapply same_config_trans; eassumption |].
      split; [congruence |].
      intros fd Hfd. eapply kept_trans; [apply Hkept1, Hhead, Hfd |].
      apply Hkept2. destruct Hfd as [-> | Hnot]; [left; reflexivity | right].
      intros Hin. apply Hnot. apply Exists_cons_tl. exact Hin.
Qed.

Lemma loop_effects serverFD script :
  forall w,
  exists tail,
    trace (snd (loop serverFD w script)) = trace w ++ tail
    /\ Forall (loop_action serverFD) tail
    /\ con_clients (srv (snd (loop serverFD w script))) mod uintSize =
         (con_clients (srv w) + clients_delta tail) mod uintSize
    /\ (clients_in_range w -> clients_in_range (snd (loop serverFD w script)))
    /\ same_config (srv w) (srv (snd (loop serverFD w script)))
    /\ In (lastCronExecTime (srv (snd (loop serverFD w script))))
         (lastCronExecTime (srv w) :: map now_stamp script)
    /\ (forall fd, fd = serverFD \/ ~ reported fd script ->
          kept fd w (snd (loop serverFD w script))).
Proof.
  induction script as [| t script IH]; intros w.
  - exists []. cbn. rewrite app_nil_r.
    split; [reflexivity |]. split; [constructor |].
    split; [f_equal; lia |]. split; [auto |].
    split; [apply same_config_refl |]. split; [left; reflexivity |].
    intros fd _. apply kept_refl.
  - rewrite loop_cons.
    destruct (cron_effects w t)
      as (tail0 & Htr0 & Hact0 & Hopen0 & Hmon0 & Hcnt0 & Hcfg0 & Hlast0).
    set (w0 := emit ActPoll (cron w t)) in *.
    assert (Htr0' : trace w0 = trace w ++ (tail0 ++ [ActPoll])).
    { subst w0. cbn. rewrite Htr0, app_assoc. reflexivity. }
    assert (Hact0' : Forall (loop_action serverFD) (tail0 ++ [ActPoll])).
    { apply Forall_app. split; [| repeat constructor].
      eapply Forall_impl; [exact Hact0 |]. intros act ->. exact I. }
    assert (Hdelta0 : clients_delta (tail0 ++ [ActPoll]) = 0).
    { rewrite clients_delta_app, (sweeps_delta tail0 Hact0). reflexivity. }
    assert (Hcnt0' : con_clients (srv w0) = con_clients (srv w)) by exact Hcnt0.
    assert (Hkept0 : forall fd, kept fd w w0).
    { intros fd. subst w0. split; cbn; [rewrite Hopen0 | rewrite Hmon0]; auto. }
    assert (Hturn : forall w1 tail1,
              trace w1 = trace w0 ++ tail1 ->
              Forall (loop_action serverFD) tail1 ->
              con_clients (srv w1) mod uintSize =
                (con_clients (srv w0) + clients_delta tail1) mod uintSize ->
              trace w1 = trace w ++ ((tail0 ++ [ActPoll]) ++ tail1)
              /\ Forall (loop_action serverFD) ((tail0 ++ [ActPoll]) ++ tail1)
              /\ con_clients (srv w1) mod uintSize =
                   (con_clients (srv w) + clients_delta ((tail0 ++ [ActPoll]) ++ tail1))
                     mod uintSize).
    { intros w1 tail1 Htr1 Hact1 Hcnt1.
      split; [rewrite Htr1, Htr0', <- !app_assoc; reflexivity |].
      split; [apply Forall_app; split; assumption |].
      rewrite clients_delta_app, Hdelta0, Hcnt1, Hcnt0'. f_equal. }
    assert (Hrng0 : clients_in_range w -> clients_in_range w0).
    { unfold clients_in_range. rewrite Hcnt0'. auto. }
    assert (Hlater : forall x,
              In x (lastCronExecTime (srv w0) :: map now_stamp script) ->
              In x (lastCronExecTime (srv w) :: map now_stamp (t :: script))).
    { intros x [<- | Hin]; [| right; right; exact Hin].
      destruct Hlast0 as [Hsame | Hstamp]; [left | right; left]; symmetry; assumption. }
    destruct (poll_r t) as [e | events] eqn:Hpoll.
    + destruct (IH w0) as (tail1 & Htr1 & Hact1 & Hcnt1 & Hrng1 & Hcfg1 & Hlast1 & Hkept1).
      destruct (Hturn _ _ Htr1 Hact1 Hcnt1) as (Htr & Hact & Hcnt).
      exists ((tail0 ++ [ActPoll]) ++ tail1).
      split; [exact Htr |]. split; [exact Hact |]. split; [exact Hcnt |].
      split; [auto |].
      split; [eapply same_config_trans; [exact Hcfg0 | exact Hcfg1] |].
      split; [apply Hlater, Hlast1 |].
      intros fd Hfd. eapply kept_trans; [apply Hkept0 |].
      apply Hkept1. destruct Hfd as [-> | Hnot]; [left; reflexivity | right].
      intros Hin. apply Hnot. apply Exists_cons_tl. exact Hin.
    + destruct (serveAll_effects serverFD events w0)
        as (tail1 & Htr1 & Hact1 & Hcnt1 & Hrng1 & Hcfg1 & Hlast1 & Hkept1).
      assert (Hhere : forall fd, fd = serverFD \/ ~ reported fd (t :: script) ->
                        fd = serverFD \/ ~ reported_in fd events).
      { intros fd [-> | Hnot]; [left; reflexivity | right].
        intros Hin. apply Hnot. apply Exists_cons_hd. rewrite Hpoll. exact Hin. }
      destruct (serveAll serverFD w0 events) as [[e |] w1]; cbn [snd] in *.
      * destruct (Hturn _ _ Htr1 Hact1 Hcnt1) as (Htr & Hact & Hcnt).
        exists ((tail0 ++ [ActPoll]) ++ tail1).
        split; [exact Htr |]. split; [exact Hact |]. split; [exact Hcnt |].
        split; [auto |].
        split; [eapply same_config_trans; [exact Hcfg0 | exact Hcfg1] |].
        split; [apply Hlater; left; symmetry; exact Hlast1 |].
        intros fd Hfd. eapply kept_trans; [apply Hkept0 | apply Hkept1, Hhere, Hfd].
      * destruct (IH w1)
          as (tail2 & Htr2 & Hact2 & Hcnt2 & Hrng2 & Hcfg2 & Hlast2 & Hkept2).
        assert (Htr12 : trace (snd (loop serverFD w1 script)) = trace w0 ++ (tail1 ++ tail2)).
        { rewrite Htr2, Htr1, <- !app_assoc. reflexivity. }
        assert (Hact12 : Forall (loop_action serverFD) (tail1 ++ tail2)).
        { apply Forall_app. split; assumption. }
        assert (Hcnt12 : con_clients (srv (snd (loop serverFD w1 script))) mod uintSize =
                         (con_clients (srv w0) + clients_delta (tail1 ++ tail2)) mod uintSize).
        { rewrite clients_delta_app. eapply counter_step; eassumption. }
        destruct (Hturn _ _ Htr12 Hact12 Hcnt12) as (Htr & Hact & Hcnt).
        exists ((tail0 ++ [ActPoll]) ++ (tail1 ++ tail2)).
        split; [exact Htr |]. split; [exact Hact |]. split; [exact Hcnt |].
        split; [auto |].
        split; [eapply same_config_trans; [exact Hcfg0 |];
                eapply same_config_trans; [exact Hcfg1 | exact Hcfg2] |].
        split; [apply Hlater; rewrite <- Hlast1; exact Hlast2 |].
        intros fd Hfd. eapply kept_trans; [apply Hkept0 |].
        eapply kept_trans; [apply Hkept1, Hhere, Hfd |].
        apply Hkept2. destruct Hfd as [-> | Hnot]; [left; reflexivity | right].
        intros Hin. apply Hnot. apply Exists_cons_tl. exact Hin.
Qed.

Lemma serve_returns serverFD w event a e w' :
  serve serverFD w event a = (Some e, w') ->
  Fd event = serverFD
  /\ exists fd se, accept_r a = inr fd /\ subscribe_r a = Some se /\ e = sysError se.
Proof.
  unfold serve. destruct (Z.eqb_spec (Fd event) serverFD) as [Hfd | Hfd].
  - destruct (accept_r a) as [ae | fd]; [discriminate |].
    destruct (subscribe_r a) as [se |]; [| discriminate].
    intros Heq. inversion Heq. split; [exact Hfd |]. eauto.
  - destruct (read_r a) as [re | raw]; [discriminate |].
    destruct (handlecommand (srv (emit (ActRead (Fd event)) w)) (clock_r a) raw) as [s r].
    destruct (write_r a); discriminate.
Qed.

Lemma serveAll_returns serverFD events :
  forall w e w',
    serveAll serverFD w events = (Some e, w') ->
    exists pre event a post w1,
      events = pre ++ (event, a) :: post
      /\ serveAll serverFD w pre = (None, w1)
      /\ serve serverFD w1 event a = (Some e, w').
Proof.
  induction events as [| [event a] events IH]; intros w e w' Hall.
  - discriminate Hall.
  - rewrite serveAll_cons in Hall.
    destruct (serve serverFD w event a) as [[e1 |] w1] eqn:Hserve.
    + inversion Hall; subst. exists [], event, a, events, w. auto.
    + destruct (IH w1 e w' Hall) as (pre & ev & an & post & w2 & -> & Hpre & Hlast).
      exists ((event, a) :: pre), ev, an, post, w2.
      split; [reflexivity |]. split; [| exact Hlast].
      cbn [app]. rewrite serveAll_cons, Hserve. exact Hpre.
Qed.

Lemma loop_outcome serverFD script :
  forall w, fst (loop serverFD w script) = Serving
            \/ exists e, fst (loop serverFD w script) = Returned e.
Proof.
  induction script as [| t script IH]; intros w; [left; reflexivity |].
  rewrite loop_cons. destruct (poll_r t) as [e | events]; [apply IH |].
  destruct (serveAll serverFD (emit ActPoll (cron w t)) events) as [[e |] w1];
    [right; eauto | apply IH].
Qed.

(* ===================================================================== *)
(** ** Further properties of the event loop                               *)
(* ===================================================================== *)

(** The loop is left in one way only: a handle was accepted on the
    listening handle and its registration failed, and the error returned
    is that failure.  No poll error, accept error, read or write error and
    no error of a command ends the loop, and the loop neither panics nor
    ends the process. *)
Theorem loop_left_only_by_failed_registration serverFD w script :
  (forall e w',
     loop serverFD w script = (Returned e, w') ->
     exists before t after pre event a post fd se,
       script = before ++ t :: after
       /\ poll_r t = inr (pre ++ (event, a) :: post)
       /\ Fd event = serverFD
       /\ accept_r a = inr fd /\ subscribe_r a = Some se
       /\ e = sysError se)
  /\ fst (loop serverFD w script) <> Panicked
  /\ (forall e, fst (loop serverFD w script) <> Exited e).
Proof.
  split.
  - revert w. induction script as [| t script IH]; intros w e w' Hloop.
    + discriminate Hloop.
    + assert (Hlater : forall w0, loop serverFD w0 script = (Returned e, w') ->
                exists before t0 after pre event a post fd se,
                  t :: script = before ++ t0 :: after
                  /\ poll_r t0 = inr (pre ++ (event, a) :: post)
                  /\ Fd event = serverFD
                  /\ accept_r a = inr fd /\ subscribe_r a = Some se
                  /\ e = sysError se).
      { intros w0 Hrest.
        destruct (IH w0 e w' Hrest)
          as (before & t0 & after & pre & ev & an & post & fd & se & -> & Hrest').
        exists (t :: before), t0, after, pre, ev, an, post, fd, se.
        split; [reflexivity | exact Hrest']. }
      rewrite loop_cons in Hloop.
      destruct (poll_r t) as [pe | events] eqn:Hpoll; [eapply Hlater, Hloop |].
      destruct (serveAll serverFD (emit ActPoll (cron w t)) events) as [[e1 |] w1] eqn:Hall;
        [| eapply Hlater, Hloop].
      inversion Hloop; subst.
      destruct (serveAll_returns _ _ _ _ _ Hall)
        as (pre & ev & an & post & w2 & -> & _ & Hserve).
      destruct (serve_returns _ _ _ _ _ _ Hserve) as (Hfd & fd & se & Hacc & Hsub & ->).
      exists [], t, script, pre, ev, an, post, fd, se. auto 10.
  - destruct (loop_outcome serverFD script w) as [Hout | [e Hout]]; rewrite Hout.
    + split; [discriminate | intros e; discriminate].
    + split; [discriminate | intros e'; discriminate].
Qed.

(** A ready listening handle.  When [Accept] fails nothing changes and the
    loop goes on; when it succeeds and the registration succeeds, the new
    handle is open and monitored, the counter is one higher, the cache is
    untouched and the loop goes on. *)
Theorem listener_event_effects serverFD w event a :
  Fd event = serverFD ->
  (forall e, accept_r a = inl e ->
     serve serverFD w event a = (None, emit ActAccept w))
  /\ (forall fd, accept_r a = inr fd -> subscribe_r a = None ->
        let res := serve serverFD w event a in
        fst res = None
        /\ fd ∈ open_fds (snd res)
        /\ fd ∈ monitored (snd res)
        /\ con_clients (srv (snd res)) = incr (con_clients (srv w))
        /\ cache (srv (snd res)) = cache (srv w)
        /\ trace (snd res) = trace w ++ [ActAccept; ActSetNonblock fd; ActSubscribe fd]).
Proof.
  intros Hfd. split.
  - intros e Hacc. apply (serve_accept_failed _ _ _ _ _ Hfd Hacc).
  - intros fd Hacc Hsub res. subst res.
    rewrite (serve_accept_ok _ _ _ _ _ Hfd Hacc Hsub). cbn.
    split; [reflexivity |].
    split; [apply elem_of_union; left; apply elem_of_singleton; reflexivity |].
    split; [apply elem_of_union; left; apply elem_of_singleton; reflexivity |].
    split; [reflexivity |]. split; [reflexivity |].
    rewrite <- !app_assoc. reflexivity.
Qed.

(** Inside the loop the server makes no call of the set-up, never reads
    from, writes to or closes the listening handle, and every payload it
    writes ends in a newline; the listening handle stays open and
    monitored. *)
Theorem loop_spares_listener serverFD w script :
  exists tail,
    trace (snd (loop serverFD w script)) = trace w ++ tail
    /\ Forall (loop_action serverFD) tail
    /\ kept serverFD w (snd (loop serverFD w script)).
Proof.
  destruct (loop_effects serverFD script w)
    as (tail & Htr & Hact & _ & _ & _ & _ & Hkept).
  exists tail. split; [exact Htr |]. split; [exact Hact |].
  apply Hkept. left. reflexivity.
Qed.

(** A handle that no poll of the run reports ready is never closed and
    never taken out of the monitored set: what happens on one connection
    leaves the others as they are. *)
Theorem unreported_handle_untouched serverFD w script fd :
  ~ reported fd script ->
  kept fd w (snd (loop serverFD w script)).
Proof.
  intros Hnot.
  destruct (loop_effects serverFD script w) as (_ & _ & _ & _ & _ & _ & _ & Hkept).
  apply Hkept. right. exact Hnot.
Qed.

(** The connection counter after a run of the loop is the counter before
    it, plus the handles accepted, minus the handles closed, as a [uint]. *)
Theorem counter_follows_accepts_and_closes serverFD w script :
  clients_in_range w ->
  exists tail,
    trace (snd (loop serverFD w script)) = trace w ++ tail
    /\ con_clients (srv (snd (loop serverFD w script))) =
         (con_clients (srv w) + clients_delta tail) mod uintSize.
Proof.
  intros Hrange.
  destruct (loop_effects serverFD script w)
    as (tail & Htr & _ & Hcnt & Hkeep & _).
  exists tail. split; [exact Htr |].
  rewrite <- Hcnt. symmetry. apply Z.mod_small, Hkeep, Hrange.
Qed.

Lemma boot_world s fd :
  subscribed fd (emit (ActSubscribe fd) (emit ActMuxNew (emit ActListen (emit ActBind
    (emit (ActSetNonblock fd) (opened fd (emit ActSocket (mkWorld s ∅ ∅ []))))))))
  = booted s fd.
Proof.
  unfold booted, subscribed, emit, opened. cbn.
  rewrite (right_id_L (∅ : gset Z) (∪)). reflexivity.
Qed.

Lemma nothing_left (X : gset Z) : ∅ ∖ X = ∅.
Proof. apply empty_difference_L. Qed.

Lemma closed_is_not_open fd (X : gset Z) : fd ∉ X ∖ {[fd]}.
Proof. rewrite not_elem_of_difference, elem_of_singleton. right. reflexivity. Qed.

Ltac boot_cases b :=
  unfold Start;
  destruct (socket_r b) as [? | serverFD];
  [| destruct (setnonblock_r b);
     [| destruct (parseip_ok b); cbn [negb];
        [destruct (bind_r b);
           [| destruct (listen_r b);
              [| destruct (mux_r b);
                 [| destruct (subscribe0_r b); [| rewrite boot_world]]]] |]]].

(** Whenever [Start] returns an error or panics, after a failed call of
    the set-up as well as out of the loop, the listening handle it created
    has been closed and no handle is monitored any more. *)
Theorem start_return_releases_listener s b script fd :
  socket_r b = inr fd ->
  fst (Start s b script) = Panicked \/ (exists e, fst (Start s b script) = Returned e) ->
  (fd ∉ open_fds (snd (Start s b script)))
  /\ monitored (snd (Start s b script)) = ∅.
Proof.
  boot_cases b; intros Hsock; inversion Hsock; subst; cbn [fst snd fail1 leave1 leave2].
  all: try (intros _; split; [apply closed_is_not_open | apply nothing_left]).
  - intros [Hout | [e Hout]]; discriminate Hout.
  - pose proof (loop_outcome fd script (booted s fd)) as Hout.
    destruct (loop fd (booted s fd) script) as [o w']. cbn [fst] in Hout.
    destruct Hout as [-> | [e ->]]; cbn [fst snd leave2].
    + intros [Hout | [e Hout]]; discriminate Hout.
    + intros _. split; [apply closed_is_not_open | apply nothing_left].
Qed.

(** How [Start] can end, read off the answers of the set-up: it panics
    exactly when the socket was made non-blocking and [Host] does not
    parse; it ends the process exactly when all calls up to [Listen]
    succeed and the creation of the multiplexer fails; and it is still
    serving only if every call of the set-up succeeded. *)
Theorem start_outcomes s b script :
  (fst (Start s b script) = Panicked <->
     exists fd, socket_r b = inr fd /\ setnonblock_r b = None /\ parseip_ok b = false)
  /\ (forall e, fst (Start s b script) = Exited e <->
        exists fd se,
          socket_r b = inr fd /\ setnonblock_r b = None /\ parseip_ok b = true
          /\ bind_r b = None /\ listen_r b = None /\ mux_r b = Some se
          /\ e = sysError se)
  /\ (fst (Start s b script) = Serving -> exists fd, boot_ok b fd).
Proof.
  unfold boot_ok.
  boot_cases b; cbn [fst snd fail1 leave1 leave2].
  8: { split; [split; [eauto | reflexivity] |].
       split; [| discriminate].
       intros e. split; [discriminate |].
       intros (fd & se & _ & _ & Hip & _). discriminate Hip. }
  7: { pose proof (loop_outcome serverFD script (booted s serverFD)) as Hout.
       destruct (loop serverFD (booted s serverFD) script) as [o w']. cbn [fst] in Hout.
       split; [| split].
       - split; [destruct Hout as [-> | [e ->]]; discriminate |].
         intros (fd & _ & _ & Hip). discriminate Hip.
       - intros e. split; [destruct Hout as [-> | [e' ->]]; discriminate |].
         intros (fd & se & _ & _ & _ & _ & _ & Hmux & _). discriminate Hmux.
       - intros _. exists serverFD. repeat split. }
  all: split; [split; [discriminate |] | split; [| discriminate]].
  all: try (intros (fd & Hs & Hn & Hi); discriminate).
  all: intros e'; split; try discriminate.
  all: try (intros (fd & se & Hs & Hn & Hi & Hb & Hl & Hm & He); discriminate).
  intros Hex. inversion Hex. eauto 10.
  intros (fd & se & Hs & Hn & Hi & Hb & Hl & Hm & He). inversion Hs; inversion Hm.
  subst. reflexivity.
Qed.


(** A server made by [NewServer] starts with no connection counted and
    with the options and the cache it was given; while [Start] serves, its
    counter is the number of handles accepted minus the number closed
    since the loop was entered, as a [uint]. *)
Theorem new_server_counts_connections opts c b script serverFD :
  boot_ok b serverFD ->
  fst (Start (NewServer opts c) b script) = Serving ->
  exists tail,
    trace (snd (Start (NewServer opts c) b script)) =
      trace (booted (NewServer opts c) serverFD) ++ tail
    /\ con_clients (srv (snd (Start (NewServer opts c) b script))) =
         clients_delta tail mod uintSize
    /\ Host (srv (snd (Start (NewServer opts c) b script))) = ServerOpts.Host opts
    /\ Port (srv (snd (Start (NewServer opts c) b script))) = ServerOpts.Port opts
    /\ CronFrequency (srv (snd (Start (NewServer opts c) b script))) =
         ServerOpts.CronFrequency opts.
Proof.
  intros Hboot. rewrite (Start_booted _ _ _ _ _ _ Hboot).
  destruct (loop_effects serverFD script (booted (NewServer opts c) serverFD))
    as (tail & Htr & _ & Hcnt & Hrange & (Hhost & Hport & Hfreq) & _).
  destruct (loop serverFD (booted (NewServer opts c) serverFD) script) as [o w'].
  cbn [snd] in *.
  destruct o; cbn [fst snd]; intros Hout; try discriminate Hout.
  exists tail. split; [exact Htr |]. split; [| auto].
  rewrite <- (Z.mod_small (con_clients (srv w')) uintSize).
  - rewrite Hcnt. reflexivity.
  - apply Hrange. unfold clients_in_range. cbn. split; [lia | reflexivity].
Qed.

(** A line read from a client is dispatched once and answered by one
    write; the server keeps what the command did to the cache whether or
    not the reply could be written; and when the reply is written the
    handle stays open and monitored and the counter is as before. *)
Theorem served_command_effects serverFD w event a raw :
  Fd event <> serverFD ->
  read_r a = inr raw ->
  let res := serve serverFD w event a in
  let hc := handlecommand (srv w) (clock_r a) raw in
  fst res = None
  /\ cache (srv (snd res)) = cache (fst hc)
  /\ trace (snd res) =
       trace w ++ [ActRead (Fd event);
                   ActWrite (Fd event) (wire_text Error (snd hc) +:+ newline)]
         ++ closing (write_r a) (Fd event)
  /\ (write_r a = None ->
        srv (snd res) = fst hc
        /\ open_fds (snd res) = open_fds w
        /\ monitored (snd res) = monitored w
        /\ con_clients (srv (snd res)) = con_clients (srv w)).
Proof.
  intros Hfd Hread res hc. subst res hc.
  rewrite (serve_read_ok _ _ _ _ _ _ _ Hfd Hread). cbv zeta. cbn [fst snd].
  pose proof (handlecommand_con_clients (srv w) (clock_r a) raw) as Hcount.
  split; [reflexivity |].
  destruct (write_r a) as [e |]; cbn.
  - split; [reflexivity |]. split; [rewrite <- !app_assoc; reflexivity |].
    intros Hnone. discriminate Hnone.
  - split; [reflexivity |]. split; [rewrite <- !app_assoc; reflexivity |].
    intros _. repeat split. exact Hcount.
Qed.

End EventLoopRuns.

(* ===================================================================== *)
(** ** The further properties at sample inputs                            *)
(* ===================================================================== *)

Lemma dispatch_errors_classified_witness :
  (refusal (errorString "unknown Command PUT") /\ demo_server = demo_server)
  \/ (exists ce, errorString "unknown Command PUT" = cacheError ce).
Proof.
  apply (dispatch_errors_classified demo_server 105 (line "PUT a b")). reflexivity.
Defined.

Lemma ttl_out_of_range_refused_witness :
  handlecommand demo_server 105 (line "SET k v 9223372036854775808") =
    (demo_server, inr (errorString "invalid TTl")).
Proof.
  apply (ttl_out_of_range_refused demo_server 105 (line "SET k v 9223372036854775808")
           "k" "v" "9223372036854775808" 9223372036854775808);
    [reflexivity | reflexivity | right; reflexivity].
Defined.

Lemma surrounding_space_ignored_witness :
  handlecommand demo_server 105 (line "GET foo") = handlecommand demo_server 105 "GET foo"
  /\ handlecommand demo_server 105 (String (ascii_of_nat 10) "GET foo") =
       handlecommand demo_server 105 "GET foo".
Proof.
  apply (surrounding_space_ignored demo_server 105 "GET foo" (ascii_of_nat 10)). reflexivity.
Defined.

Lemma line_of_tokens_round_trip_witness :
  GoStrings.Fields (join_line ["SET"; "k"; "v"; "30"]) = ["SET"; "k"; "v"; "30"]
  /\ handlecommand demo_server 105 (join_line ["SET"; "k"; "v"; "30"]) =
       handleSetWithTTL demo_server 105 "k" "v" "30".
Proof.
  destruct (line_of_tokens_round_trip ["SET"; "k"; "v"; "30"]) as [Hfields Hrun].
  - repeat constructor; discriminate.
  - split; [exact Hfields | apply Hrun].
Defined.

Lemma parts_are_tokens_witness :
  is_token "GET" /\ is_token "foo" /\ Forall is_token [].
Proof.
  apply (proj2 (parts_are_tokens (line "  GET   foo ")) "GET" "foo" []). reflexivity.
Defined.

Lemma loop_left_only_by_failed_registration_witness :
  let t := mkTick 105 105 105
             (inr [(mkEvent 7 1, client_answers (inl EOF) None);
                   (mkEvent 3 1, mkAnswers (inr 8) (Some (Errno 28)) (inl EAGAIN) 105 None)]) in
  exists before t0 after pre event a post fd se,
    [idle_tick 104; t] = before ++ t0 :: after
    /\ poll_r t0 = inr (pre ++ (event, a) :: post)
    /\ Fd event = 3
    /\ accept_r a = inr fd /\ subscribe_r a = Some se
    /\ sysError (Errno 28) = sysError se.
Proof.
  intros t.
  apply (proj1 (loop_left_only_by_failed_registration demo_cacheText demo_sysText 3
                  demo_world [idle_tick 104; t])
           (sysError (Errno 28))
           (snd (loop demo_cacheText demo_sysText 3 demo_world [idle_tick 104; t]))).
  reflexivity.
Defined.

Lemma listener_event_effects_witness :
  let ok := serve demo_cacheText demo_sysText 3 demo_world (mkEvent 3 1)
              (mkAnswers (inr 8) None (inl EAGAIN) 105 None) in
  serve demo_cacheText demo_sysText 3 demo_world (mkEvent 3 1)
    (mkAnswers (inl (Errno 24)) None (inl EAGAIN) 105 None)
    = (None, emit ActAccept demo_world)
  /\ fst ok = None
  /\ 8 ∈ open_fds (snd ok)
  /\ 8 ∈ monitored (snd ok)
  /\ con_clients (srv (snd ok)) = 2.
Proof.
  intros ok. split.
  - apply (proj1 (listener_event_effects demo_cacheText demo_sysText 3 demo_world
                    (mkEvent 3 1) (mkAnswers (inl (Errno 24)) None (inl EAGAIN) 105 None)
                    eq_refl) (Errno 24)).
    reflexivity.
  - destruct (proj2 (listener_event_effects demo_cacheText demo_sysText 3 demo_world
                       (mkEvent 3 1) (mkAnswers (inr 8) None (inl EAGAIN) 105 None)
                       eq_refl) 8 eq_refl eq_refl)
      as (Hgo & Hopen & Hmon & Hcount & _).
    split; [exact Hgo |]. split; [exact Hopen |]. split; [exact Hmon | exact Hcount].
Defined.

Lemma unreported_handle_untouched_witness :
  let t := mkTick 105 105 105
             (inr [(mkEvent 9 1, client_answers (inl EOF) None)]) in
  kept 7 demo_world (snd (loop demo_cacheText demo_sysText 3 demo_world [t])).
Proof.
  intros t.
  apply (unreported_handle_untouched demo_cacheText demo_sysText 3 demo_world [t] 7).
  intros Hrep. inversion Hrep as [? ? Hin | ? ? Hlater]; [| inversion Hlater].
  cbn in Hin. inversion Hin as [? ? Hfd | ? ? Hrest]; [discriminate Hfd | inversion Hrest].
Defined.

Lemma counter_follows_accepts_and_closes_witness :
  let t := mkTick 105 105 105
             (inr [(mkEvent 3 1, mkAnswers (inr 8) None (inl EAGAIN) 105 None);
                   (mkEvent 7 1, client_answers (inl EOF) None);
                   (mkEvent 3 1, mkAnswers (inr 9) None (inl EAGAIN) 105 None)]) in
  let res := loop demo_cacheText demo_sysText 3 demo_world [t] in
  exists tail,
    trace (snd res) = trace demo_world ++ tail
    /\ con_clients (srv (snd res)) = (1 + clients_delta tail) mod uintSize.
Proof.
  intros t res.
  apply (counter_follows_accepts_and_closes demo_cacheText demo_sysText 3 demo_world [t]).
  split; [discriminate | reflexivity].
Defined.

Lemma start_return_releases_listener_witness :
  let b := mkBoot (inr 3) None true (Some (Errno 98)) None None None in
  let res := Start demo_cacheText demo_sysText demo_server b [idle_tick 105] in
  (3 ∉ open_fds (snd res)) /\ monitored (snd res) = ∅.
Proof.
  intros b res.
  apply (start_return_releases_listener demo_cacheText demo_sysText demo_server b
           [idle_tick 105] 3); [reflexivity |].
  right. exists (sysError (Errno 98)). reflexivity.
Defined.

Lemma start_outcomes_witness :
  fst (Start demo_cacheText demo_sysText demo_server
         (mkBoot (inr 3) None false None None None None) [idle_tick 105]) = Panicked.
Proof.
  apply (proj1 (start_outcomes demo_cacheText demo_sysText demo_server
                  (mkBoot (inr 3) None false None None None None) [idle_tick 105])).
  exists 3. repeat split.
Defined.

Lemma new_server_counts_connections_witness :
  let opts := ServerOpts.mk "127.0.0.1" 7379 10 0 in
  let t := mkTick 105 105 105
             (inr [(mkEvent 3 1, mkAnswers (inr 8) None (inl EAGAIN) 105 None)]) in
  let res := Start demo_cacheText demo_sysText (NewServer opts ∅) demo_boot [t] in
  exists tail,
    trace (snd res) = trace (booted (NewServer opts ∅) 3) ++ tail
    /\ con_clients (srv (snd res)) = clients_delta tail mod uintSize
    /\ Host (srv (snd res)) = "127.0.0.1"
    /\ Port (srv (snd res)) = 7379
    /\ CronFrequency (srv (snd res)) = 10.
Proof.
  intros opts t res.
  apply (new_server_counts_connections demo_cacheText demo_sysText opts ∅ demo_boot [t] 3).
  - repeat split.
  - reflexivity.
Defined.

Lemma served_command_effects_witness :
  let a := client_answers (inr (line "SET k v")) (Some EAGAIN) in
  let res := serve demo_cacheText demo_sysText 3 demo_world (mkEvent 7 1) a in
  fst res = None
  /\ cache (srv (snd res)) = cache (fst (handlecommand demo_server 105 (line "SET k v")))
  /\ trace (snd res) = [ActRead 7; ActWrite 7 (line "Success"); ActClose 7].
Proof.
  intros a res.
  destruct (served_command_effects demo_cacheText demo_sysText 3 demo_world (mkEvent 7 1) a
              (line "SET k v")) as (Hgo & Hcache & Htrace & _);
    [discriminate | reflexivity |].
  split; [exact Hgo |]. split; [exact Hcache | exact Htrace].
Defined.
